(** * node-docker-utils: a shallow embedding of [index.js]

    The library drives the [docker] binary: it builds argument lists
    ([_getBinds], [_parseRunOptions], [_parseRunCommandArguments]) and hands
    them to the process primitives of nami-utils ([runProgram], [execAsync]).

    Modelling choices.
    - JavaScript values are the inductive [value]; numbers are restricted to
      integers, arrays and functions are left out of option maps.
    - A JavaScript object used as a map is an association list in the
      enumeration order of its own properties. [_.each] visits them in this
      order, unless the object has a [length] that makes it array-like: then
      it visits the indices below that length ([visits]).
    - Code that throws, logs, spawns processes or exits the host runs in the
      monad [M]: explicit passing of a [World] plus an [outcome].
    - The container runtime, [JSON.stringify] and the clock are collaborators
      outside the repository; they are variables of the section [Library]. *)

From Stdlib Require Import String Ascii List ZArith Bool Lia DecimalString.
Import ListNotations.
Local Open Scope string_scope.
Local Open Scope list_scope.
Local Set Warnings "-register-all".

(** String concatenation, the [+] and template literals of the source. *)
Infix "+++" := String.append (right associativity, at level 60).

(** ** JavaScript values *)

Module JS.

Inductive value : Type :=
| VUndefined
| VNull
| VBool (b : bool)
| VNum (n : Z)
| VStr (s : string)
| VObj (props : list (string * value)).

(** An object as a map: its own enumerable properties, in enumeration order. *)
Definition obj : Type := list (string * value).

Definition newline : string := String "010"%char EmptyString.
Definition dquote : string := String "034"%char EmptyString.

(** Conversion to string, as a template literal performs it. Numbers are
    printed in plain decimal digits, which is what JavaScript prints for the
    safe integers, up to 2^53 - 1 in magnitude. *)
Definition toString (v : value) : string :=
  match v with
  | VUndefined => "undefined"
  | VNull => "null"
  | VBool true => "true"
  | VBool false => "false"
  | VNum n => NilZero.string_of_int (Z.to_int n)
  | VStr s => s
  | VObj _ => "[object Object]"
  end.

(** What [if (v)] tests. *)
Definition truthy (v : value) : bool :=
  match v with
  | VUndefined | VNull => false
  | VBool b => b
  | VNum n => negb (n =? 0)%Z
  | VStr s => negb (s =? EmptyString)
  | VObj _ => true
  end.

(** Strict comparison with a boolean literal: [v === b]. *)
Definition strictEqBool (v : value) (b : bool) : bool :=
  match v with
  | VBool b' => Bool.eqb b' b
  | _ => false
  end.

(** Property read [o[k]]; a missing property reads as [undefined]. *)
Fixpoint lookup (k : string) (o : obj) : option value :=
  match o with
  | [] => None
  | (k', v) :: rest => if k' =? k then Some v else lookup k rest
  end.

Definition get (k : string) (o : obj) : value :=
  match lookup k o with
  | Some v => v
  | None => VUndefined
  end.

(** Property read on an arbitrary value, used only on objects below. *)
Definition prop (v : value) (k : string) : value :=
  match v with
  | VObj o => get k o
  | _ => VUndefined
  end.

(** [Array.prototype.join]: [null] and [undefined] elements become the empty
    string, every other element is converted with [toString]. *)
Definition joinItem (v : value) : string :=
  match v with
  | VUndefined | VNull => EmptyString
  | _ => toString v
  end.

Fixpoint join (sep : string) (xs : list value) : string :=
  match xs with
  | [] => EmptyString
  | [x] => joinItem x
  | x :: rest => joinItem x +++ sep +++ join sep rest
  end.

(** [s.split('\n')] as a pair: the text before the first newline and the
    list of the remaining pieces. The result of [split] is never empty. *)
Fixpoint splitLines (s : string) : string * list string :=
  match s with
  | EmptyString => (EmptyString, [])
  | String c rest =>
      let (first, more) := splitLines rest in
      if Ascii.eqb c "010"%char
      then (EmptyString, first :: more)
      else (String c first, more)
  end.

Definition split_newline (s : string) : list string :=
  let (first, more) := splitLines s in first :: more.

(** [s.replace('\n', '')]: a string pattern replaces its first occurrence
    only. *)
Fixpoint removeFirstNewline (s : string) : string :=
  match s with
  | EmptyString => EmptyString
  | String c rest =>
      if Ascii.eqb c "010"%char then rest else String c (removeFirstNewline rest)
  end.

End JS.
Import JS.

(** ** The helpers of lodash and of nami-utils' lodash-extra

    Their sources are not part of this repository; they are modelled after
    their documented behaviour and the expectations of test/index.js. *)

Module Lodash.

Definition isString (v : value) : bool :=
  match v with VStr _ => true | _ => false end.

(** [_.isReallyObject]: a plain object, and nothing else. *)
Definition isReallyObject (v : value) : bool :=
  match v with VObj _ => true | _ => false end.

Definition isNull (v : value) : bool :=
  match v with VNull => true | _ => false end.

Definition isUndefined (v : value) : bool :=
  match v with VUndefined => true | _ => false end.

(** [_.isEmpty]: strings and objects are empty when they have no element;
    every other value counts as empty. *)
Definition isEmpty (v : value) : bool :=
  match v with
  | VStr s => s =? EmptyString
  | VObj o => match o with [] => true | _ => false end
  | _ => true
  end.

(** [isLength] and [isArrayLike] of lodash: an object whose [length] is a
    number, integral and between 0 and [Number.MAX_SAFE_INTEGER], is walked
    like an array by [_.each]. *)
Definition MAX_SAFE_INTEGER : Z := 9007199254740991.

Definition isLength (v : value) : bool :=
  match v with
  | VNum n => (0 <=? n)%Z && (n <=? MAX_SAFE_INTEGER)%Z
  | _ => false
  end.

Definition isArrayLike (o : obj) : bool := isLength (get "length" o).

(** The text of the index [i] used as a key. *)
Definition indexKey (i : nat) : string := toString (VNum (Z.of_nat i)).

(** What [_.each(o, f)] hands to [f], in order: the own properties of [o],
    or, when [o] is array-like, [o[i]] with the index [i] for every index
    below the length. The callbacks of index.js only interpolate the key
    into text, so an index is given as its text. *)
Definition visits (o : obj) : obj :=
  if isArrayLike o
  then match get "length" o with
       | VNum n => map (fun i => (indexKey i, get (indexKey i) o))
                     (seq 0 (Z.to_nat n))
       | _ => []
       end
  else o.

(** [_.compact] on an array of strings drops the empty ones. *)
Definition compact (xs : list string) : list string :=
  filter (fun s => negb (s =? EmptyString)) xs.

Definition hasKey (k : string) (o : obj) : bool :=
  match lookup k o with Some _ => true | None => false end.

(** [_.opts(options, defaults)]: a copy of [options] in which every key that
    is missing, or present with the value [undefined], takes the value of
    [defaults]. Keys of [options] keep their place; the keys added from
    [defaults] follow them (test/index.js: the caller's [--name] comes
    before the default [--interactive]). *)
Definition fillUndefined (defaults : obj) (p : string * value) : string * value :=
  match snd p with
  | VUndefined => (fst p, get (fst p) defaults)
  | _ => p
  end.

Definition opts (options defaults : obj) : obj :=
  map (fillUndefined defaults) options
  ++ filter (fun p => negb (hasKey (fst p) options)) defaults.

End Lodash.
Import Lodash.

(** ** Results of code that may throw *)

(** A thrown [Error], identified by its message. *)
Inductive exn : Type := Error (message : string).

(** [`${e}`] for an [Error] object. *)
Definition exnToString (e : exn) : string :=
  match e with Error m => "Error: " +++ m end.

Inductive result (A : Type) : Type :=
| Ok (a : A)
| Err (e : exn).
Arguments Ok {A} a.
Arguments Err {A} e.

(** [_.each(o, f)] for a callback that pushes onto an accumulator and may
    throw; the callbacks below never return [false], so no early exit.
    [eachFrom] runs the callback over the pairs that are visited. *)
Fixpoint eachFrom {Acc : Type} (f : value -> string -> Acc -> result Acc)
  (entries : obj) (acc : Acc) : result Acc :=
  match entries with
  | [] => Ok acc
  | (k, v) :: rest =>
      match f v k acc with
      | Ok acc' => eachFrom f rest acc'
      | Err e => Err e
      end
  end.

Definition each {Acc : Type} (f : value -> string -> Acc -> result Acc) (o : obj)
  (acc : Acc) : result Acc :=
  eachFrom f (visits o) acc.

(** A command is a string or an array of strings; [concat] splices arrays. *)
Inductive command : Type :=
| CmdString (s : string)
| CmdArray (items : list string).

Definition concatItems (cmd : command) : list value :=
  match cmd with
  | CmdString s => [VStr s]
  | CmdArray items => map VStr items
  end.

(** ** The world the library acts on *)

(** A process handed to the operating system: [nos.runProgram(program, args)]
    or [nos.execAsync(cmdline, handlers)]. *)
Inductive spawn : Type :=
| RunProgram (program args : string)
| ExecAsync (cmdline : string).

Inductive level : Type := Info | Debug | Failure.
Inductive sink : Type := Console | Custom.

(** [completions] records every invocation of the caller's callback with its
    two arguments; [sigintListeners] counts the listeners installed with
    [process.on('SIGINT', ...)]. *)
Record World : Type := mkWorld {
  spawns : list spawn;
  logs : list (sink * level * string);
  completions : list (value * value);
  sigintListeners : nat
}.

Definition emptyWorld : World := mkWorld [] [] [] 0.

(** What a synchronous run of a program answers: its standard output, or a
    thrown error. The runtime sees the processes spawned before. *)
Inductive reply : Type :=
| Returns (stdout : string)
| Fails (e : exn).

Definition Runtime : Type := list spawn -> string -> string -> reply.

(** What happens while [handler.wait] blocks: the events delivered to the
    registered handlers, in order, and how the wait ends. *)
Inductive event : Type :=
| Stdout (msg : string)
| Stderr (msg : string)
| Sigint
| ProcessExit (res : value).

Inductive waitEnd : Type :=
| Returned
| TimedOut (e : exn).

Inductive Timeout : Type :=
| Seconds (n : Z)
| Infinity.

Definition Child : Type := Timeout -> list event * waitEnd.

Definition isTrigger (ev : event) : bool :=
  match ev with
  | Sigint | ProcessExit _ => true
  | _ => false
  end.

Definition triggers (evs : list event) : list event := filter isTrigger evs.

(** The logger of the options: the caller's, or [_getDummyLogger()]. *)
Inductive Logger : Type := DummyLogger | CustomLogger.

(** The caller's completion callback: a function, or [null]. *)
Inductive callback : Type := NoCallback | OnComplete.

(** The options bag of the entry points; an absent key is [None]. *)
Record options : Type := mkOptions {
  mappings : option obj;
  logger : option Logger;
  timeout : option Timeout;
  runOptions : option obj;
  exitOnEnd : option bool;
  force : option bool
}.

Definition noOptions : options := mkOptions None None None None None None.

(** One key of [_.opts(options, {key: default})] on the options bag. *)
Definition withDefault {A : Type} (d : A) (o : option A) : A :=
  match o with Some a => a | None => d end.

(** ** The monad of effects: state, exceptions and host exit *)

Inductive outcome (A : Type) : Type :=
| Ret (a : A)
| Throw (e : exn)
| Exit.
Arguments Ret {A} a.
Arguments Throw {A} e.
Arguments Exit {A}.

Definition M (A : Type) : Type := World -> World * outcome A.

Definition ret {A : Type} (a : A) : M A := fun w => (w, Ret a).

Definition throw {A : Type} (e : exn) : M A := fun w => (w, Throw e).

Definition bind {A B : Type} (m : M A) (k : A -> M B) : M B :=
  fun w =>
    match m w with
    | (w', Ret a) => k a w'
    | (w', Throw e) => (w', Throw e)
    | (w', Exit) => (w', Exit)
    end.

(** [try { m } catch (e) { h e }]; a host exit is not an exception. *)
Definition tryCatch {A : Type} (m : M A) (h : exn -> M A) : M A :=
  fun w =>
    match m w with
    | (w', Throw e) => h e w'
    | r => r
    end.

Definition liftResult {A : Type} (r : result A) : M A :=
  match r with
  | Ok a => ret a
  | Err e => throw e
  end.

(** [process.exit()]: nothing runs after it. *)
Definition processExit : M unit := fun w => (w, Exit).

Notation "x <- m ;; k" := (bind m (fun x => k))
  (at level 61, m at next level, right associativity).
Notation "m ;;; k" := (bind m (fun _ => k))
  (at level 61, right associativity).

(** The elementary changes of the world. *)
Definition addSpawn (p : spawn) (w : World) : World :=
  mkWorld (spawns w ++ [p]) (logs w) (completions w) (sigintListeners w).

Definition addLog (s : sink) (l : level) (msg : string) (w : World) : World :=
  mkWorld (spawns w) (logs w ++ [(s, l, msg)]) (completions w) (sigintListeners w).

Definition addCompletion (container res : value) (w : World) : World :=
  mkWorld (spawns w) (logs w) (completions w ++ [(container, res)])
    (sigintListeners w).

Definition addListener (w : World) : World :=
  mkWorld (spawns w) (logs w) (completions w) (S (sigintListeners w)).

Definition writeLog (s : sink) (l : level) (msg : string) : M unit :=
  fun w => (addLog s l msg w, Ret tt).

(** [logger.info], [logger.debug], [logger.error]. The dummy logger prints
    info and errors on the console and ignores debug messages. *)
Definition loggerSink (lg : Logger) : sink :=
  match lg with
  | CustomLogger => Custom
  | DummyLogger => Console
  end.

Definition logWith (lg : Logger) (l : level) (msg : string) : M unit :=
  match lg, l with
  | DummyLogger, Debug => ret tt
  | _, _ => writeLog (loggerSink lg) l msg
  end.

(** The world after a call of the logger. *)
Definition logged (lg : Logger) (l : level) (msg : string) (w : World) : World :=
  fst (logWith lg l msg w).

(** Callbacks that return or exit the host, but do not throw. *)
Definition neverThrows {A : Type} (m : M A) : Prop :=
  forall w e, snd (m w) <> Throw e.

(** Computations that only add to the list of spawned processes. *)
Definition growsSpawns {A : Type} (m : M A) : Prop :=
  forall w, exists more, spawns (fst (m w)) = spawns w ++ more.

(** How often the callback runs for [n] termination triggers: the host is
    gone after the first one when [exitOnEnd] is set. *)
Definition invocations (cb : callback) (exitOnEnd_ : bool) (n : nat) : nat :=
  match cb with
  | NoCallback => 0
  | OnComplete => if exitOnEnd_ then Nat.min 1 n else n
  end.

(** [if (callback) callback(container, res)]: the invocation is recorded;
    the caller's function is taken to return normally. *)
Definition invoke (cb : callback) (container res : value) : M unit :=
  match cb with
  | NoCallback => ret tt
  | OnComplete => fun w => (addCompletion container res w, Ret tt)
  end.

(** [process.on('SIGINT', listener)]: one more listener on the host. *)
Definition processOnSigint : M unit :=
  fun w => (addListener w, Ret tt).

(** ** Sample collaborators and inputs *)

(** A runtime that answers every command with one identifier, one that
    refuses every command, and three behaviours of the child process. *)
Definition quietRuntime : Runtime := fun _ _ _ => Returns "0123abcd".
Definition brokenRuntime : Runtime := fun _ _ _ => Fails (Error "daemon down").
Definition plainStringify (v : value) : string := toString v.
Definition exitedOk : value := VObj [("exitCode", VNum 0)].
Definition interruptedThenExited : Child :=
  fun _ => ([Sigint; ProcessExit exitedOk], Returned).
Definition exitsNormally : Child :=
  fun _ => ([Stdout "hello"; ProcessExit exitedOk], Returned).
Definition hangs : Child :=
  fun _ => ([Stdout "hello"], TimedOut (Error "Exceeded timeout")).
Definition sampleMappings : obj :=
  [("/tmp/a", VStr "/b");
   ("/tmp/test", VObj [("path", VStr "/container/tmp/test"); ("mode", VStr "rw")])].
Definition sampleOptions : options :=
  mkOptions (Some [("/tmp/a", VStr "/b")]) None None None None None.
Definition badOptions : options :=
  mkOptions (Some [("/tmp/a", VNum 42)]) None None None None None.

(** A runtime that lists one identifier on a line of its own, a child that
    exits without output, options with [exitOnEnd] and with a logger, and
    stand-ins for the file system, the path functions and the processes
    spawned by [shell] and [loadImage]. *)
Definition listingRuntime : Runtime :=
  fun _ _ _ => Returns ("0123abcd" +++ newline).
Definition exitsSilently : Child :=
  fun _ => ([ProcessExit exitedOk], Returned).
Definition exitingOptions : options :=
  mkOptions (Some [("/tmp/a", VStr "/b")]) None None None (Some true) None.
Definition loggingOptions : options :=
  mkOptions None (Some CustomLogger) None None None (Some true).
Definition sampleGlob (pattern : string) : list string :=
  if pattern =? "/tmp/root/*" then ["/tmp/root/bin"; "/tmp/root/etc"] else [].
Definition sampleJoin (a b : string) : string := a +++ b.
Definition sampleBasename (f : string) : string :=
  if f =? "/tmp/root/bin" then "bin"
  else if f =? "/tmp/root/etc" then "etc" else f.
Definition sampleSpawnSync (program : string) (args : list value) : M value :=
  fun w => (addSpawn (RunProgram program (join " " args)) w,
            Ret (VObj [("status", VNum 0)])).
Definition sampleLogExec (program args : string) : M unit :=
  fun w => (addSpawn (RunProgram program args) w, Ret tt).
Definition gzExtname (p : string) : string := ".gz".
Definition everyFile (p : string) : bool := true.
Definition noFile (p : string) : bool := false.

(** ** index.js *)

Section Library.

(** The container runtime behind [nos.runProgram], the host's
    [JSON.stringify] and the reading of the clock [strftime('%s')]. *)
Variable runtime : Runtime.
Variable JSON_stringify : value -> string.
Variable strftime_s : string.

(** [nos.runProgram(program, args)]: runs to completion, returns the
    standard output or throws. *)
Definition runProgram (program args : string) : M string :=
  fun w =>
    match runtime (spawns w) program args with
    | Returns out => (addSpawn (RunProgram program args) w, Ret out)
    | Fails e => (addSpawn (RunProgram program args) w, Throw e)
    end.

Definition exec (cmd : string) : M string := runProgram "docker" cmd.

(** The command lines of the template literals of [_removeContainer],
    [getContainerId] and [getImageId]. *)
Definition rmCommand (force_ : bool) (containerId : value) : string :=
  "rm " +++ (if force_ then "-f" else EmptyString) +++ " " +++ toString containerId.

Definition psCommand (name : value) : string :=
  "ps -aq --filter " +++ dquote +++ "name=" +++ toString name +++ dquote.

Definition imagesCommand (imageName : string) : string :=
  "images -q " +++ imageName.

Definition _removeContainer (containerId : value) (cb : option (M unit))
  (opt : options) : M unit :=
  let force_ := withDefault false (force opt) in
  let logger_ := withDefault DummyLogger (logger opt) in
  tryCatch
    (exec (rmCommand force_ containerId) ;;;
     logWith logger_ Debug "Temporary container successfully deleted")
    (fun e => logWith logger_ Failure ("Failed to delete container " +++ exnToString e)) ;;;
  match cb with
  | Some k => k
  | None => ret tt
  end.

Definition invalidMappingSpec (v : value) : exn :=
  Error ("Invalid mapping spec " +++ JSON_stringify v).

(** The body of the loop of [_getBinds] for one entry of the mappings:
    [bindSpec] is the text pushed after [-v] once the entry is accepted. *)
Definition bindSpec (containerPath : value) (hostPath : string) : string :=
  let mode := if isReallyObject containerPath
              then prop containerPath "mode" else VNull in
  let containerPath' := if isReallyObject containerPath
                        then prop containerPath "path" else containerPath in
  let spec := hostPath +++ ":" +++ toString containerPath' in
  if truthy mode then spec +++ ":" +++ toString mode else spec.

Definition bindEntry (containerPath : value) (hostPath : string)
  (acc : list value) : result (list value) :=
  if isString containerPath || isReallyObject containerPath
  then Ok (acc ++ [VStr "-v"; VStr (bindSpec containerPath hostPath)])
  else Err (invalidMappingSpec containerPath).

Definition _getBinds (mappings_ : obj) : result (list value) :=
  each bindEntry mappings_ [].

(** The body of the loop of [_parseRunOptions] for one option. *)
Definition optionEntry (acc : list value) (p : string * value) : list value :=
  let (key, v) := p in
  let acc1 := if negb (strictEqBool v false)
              then acc ++ [VStr ("--" +++ key)] else acc in
  if negb (isNull v) && negb (isUndefined v) && negb (strictEqBool v true)
  then acc1 ++ [v] else acc1.

Definition _parseRunOptions (runOptions_ : obj) : list value :=
  fold_left optionEntry (visits runOptions_) [].

(** [!_.isEmpty(res) ? res : null] *)
Definition nonEmptyOrNull (res : value) : value :=
  if negb (isEmpty res) then res else VNull.

Definition getImageId (imageName : string) : M value :=
  out <- exec (imagesCommand imageName) ;;
  let res := match split_newline out with
             | first :: _ => VStr first
             | [] => VUndefined
             end in
  ret (nonEmptyOrNull res).

Definition getContainerId (name : value) : M value :=
  out <- exec (psCommand name) ;;
  let res := VStr (removeFirstNewline out) in
  ret (nonEmptyOrNull res).

Definition _parseRunCommandArguments (id : string) (cmd : command)
  (runOptions_ : obj) (mappings_ : obj) : result (list value) :=
  let runOptions' := opts runOptions_ [("interactive", VNull)] in
  let parsedRunOptions := _parseRunOptions runOptions' in
  match _getBinds mappings_ with
  | Ok binds =>
      Ok ([VStr "run"] ++ binds ++ parsedRunOptions ++ [VStr id] ++ concatItems cmd)
  | Err e => Err e
  end.

(** [_parseMsg]: the non-empty lines of a chunk of output. *)
Definition _parseMsg (msg : string) : list string :=
  compact (split_newline msg).

Fixpoint forEach {A : Type} (f : A -> M unit) (xs : list A) : M unit :=
  match xs with
  | [] => ret tt
  | x :: rest => f x ;;; forEach f rest
  end.

(** [handler.wait] of [nos.execAsync]: the events of the child and of the
    host are delivered to the handlers until the child exits or the deadline
    passes, in which case [wait] throws. The SIGINT listener is the one this
    call installed: the listeners that earlier calls left on the host,
    counted by [sigintListeners], are not run here, so what is proved about
    an interrupt is stated for a host that had none ([sigintListeners w = 0]).
    An exception that escapes a handler surfaces from the wait, and nothing
    is delivered once the host has exited. *)
Definition dispatch (onStdout onStderr : string -> M unit) (onExit : value -> M unit)
  (sigint : M unit) (ev : event) : M unit :=
  match ev with
  | Stdout msg => onStdout msg
  | Stderr msg => onStderr msg
  | Sigint => sigint
  | ProcessExit res => onExit res
  end.

Definition deliver (onStdout onStderr : string -> M unit) (onExit : value -> M unit)
  (sigint : M unit) (evs : list event) : M unit :=
  forEach (dispatch onStdout onStderr onExit sigint) evs.

Definition wait (ending : waitEnd) : M unit :=
  match ending with
  | Returned => ret tt
  | TimedOut e => throw e
  end.

Definition execAsync (cmdline : string) : M unit :=
  fun w => (addSpawn (ExecAsync cmdline) w, Ret tt).

Section RunAsync.

Variable id : string.
Variable cmd : command.
Variable cb : callback.
Variable opt : options.

Definition asyncMappings : obj := withDefault [] (mappings opt).
Definition asyncLogger : Logger := withDefault DummyLogger (logger opt).
Definition asyncTimeout : Timeout := withDefault (Seconds 10800) (timeout opt).
Definition asyncExitOnEnd : bool := withDefault false (exitOnEnd opt).
Definition asyncRunOptions : obj :=
  opts (withDefault [] (runOptions opt)) [("name", VStr strftime_s)].

Definition onStdout (msg : string) : M unit :=
  forEach (fun line => logWith asyncLogger Debug ("[docker] " +++ line)) (_parseMsg msg).

Definition onStderr (msg : string) : M unit :=
  forEach (fun line => logWith asyncLogger Failure ("[docker] " +++ line)) (_parseMsg msg).

Definition onExit (res : value) : M unit :=
  containerId <- getContainerId (get "name" asyncRunOptions) ;;
  invoke cb (VObj [("id", containerId)]) res ;;;
  _removeContainer containerId
    (Some (if asyncExitOnEnd then processExit else ret tt))
    (mkOptions None (Some asyncLogger) None None None (Some true)).

Definition sigintListener : M unit := onExit (VObj [("exitCode", VNum 127)]).

Definition runInContainerAsync (child : Child) : M unit :=
  processOnSigint ;;;
  _cmd <- liftResult (_parseRunCommandArguments id cmd asyncRunOptions asyncMappings) ;;
  execAsync ("docker " +++ join " " _cmd) ;;;
  tryCatch
    (deliver onStdout onStderr onExit sigintListener (fst (child asyncTimeout)) ;;;
     wait (snd (child asyncTimeout)))
    (fun e =>
       containerId <- getContainerId (get "name" asyncRunOptions) ;;
       _removeContainer containerId None
         (mkOptions None None None None None (Some true)) ;;;
       throw e).

End RunAsync.

Definition runInContainer (id : string) (cmd : command) (opt : options) : M string :=
  let mappings_ := withDefault [] (mappings opt) in
  let runOptions_ := withDefault [] (runOptions opt) in
  _cmd <- liftResult (_parseRunCommandArguments id cmd runOptions_ mappings_) ;;
  exec (join " " _cmd).

Definition imageExists (imageName : string) : M bool :=
  v <- getImageId imageName ;;
  ret (negb (isEmpty v)).

(** The runtime answers every lookup of a container by name. *)
Definition lookupsSucceed : Prop :=
  forall history name,
    exists out, runtime history "docker" (psCommand name) = Returns out.

(** ** The rest of index.js: shell, verifyConnection, pull, build, loadImage *)

(** Collaborators of these functions, outside the repository: [nfile.glob]
    and [nfile.exists] of nami-utils, [path.join], [path.basename] and
    [path.extname] of the host, [child_process.spawnSync] (always called
    with [{stdio: 'inherit', shell: true}]) and [logExec] of common-utils. *)
Variable glob : string -> list string.
Variable fileExists : string -> bool.
Variable path_join : string -> string -> string.
Variable path_basename : string -> string.
Variable path_extname : string -> string.
Variable spawnSync : string -> list value -> M value.
Variable logExec : string -> string -> M unit.

(** [e.message] *)
Definition message (e : exn) : string :=
  match e with Error m => m end.

(** [o[k] = v]: an existing key keeps its place, a new key comes last (the
    keys assigned below are paths, never integer-like). *)
Fixpoint setProp (k : string) (v : value) (o : obj) : obj :=
  match o with
  | [] => [(k, v)]
  | (k', v') :: rest =>
      if k' =? k then (k, v) :: rest else (k', v') :: setProp k v rest
  end.

(** [s.startsWith(pat)], and [s] without its first [n] characters. *)
Fixpoint startsWith (pat s : string) : bool :=
  match pat, s with
  | EmptyString, _ => true
  | String _ _, EmptyString => false
  | String a pat', String b s' => Ascii.eqb a b && startsWith pat' s'
  end.

Fixpoint dropChars (n : nat) (s : string) : string :=
  match n, s with
  | O, _ => s
  | S _, EmptyString => EmptyString
  | S n', String _ s' => dropChars n' s'
  end.

(** [s.replace(pat, rep)] for a string pattern: the first occurrence only. *)
Fixpoint replaceFirst (pat rep s : string) : string :=
  if startsWith pat s then rep +++ dropChars (String.length pat) s
  else match s with
       | EmptyString => EmptyString
       | String c s' => String c (replaceFirst pat rep s')
       end.

(** Whether [pat] occurs in [s]. *)
Fixpoint occurs (pat s : string) : bool :=
  if startsWith pat s then true
  else match s with
       | EmptyString => false
       | String _ s' => occurs pat s'
       end.

(** The options of [shell]: [root], [mappings] and [runOptions]. *)
Record shellOptions : Type := mkShellOptions {
  root : value;
  shellMappings : option obj;
  shellRunOptions : option obj
}.

(** The mappings of [shell] once every entry of the root directory is
    mapped to the directory of the same name under [/]. *)
Definition rootMappings (root_ : value) (mappings_ : obj) : obj :=
  if truthy root_
  then fold_left
         (fun m f => setProp f (VStr (path_join "/" (path_basename f))) m)
         (glob (toString root_ +++ "/*")) mappings_
  else mappings_.

Definition shellRunOptions' (opt : shellOptions) : obj :=
  opts (withDefault [] (shellRunOptions opt))
    [("interactive", VBool true); ("tty", VBool true)].

Definition shell (imageId : string) (opt : shellOptions) : M value :=
  let runOptions_ := _parseRunOptions (shellRunOptions' opt) in
  let mappings_ := rootMappings (root opt) (withDefault [] (shellMappings opt)) in
  binds <- liftResult (_getBinds mappings_) ;;
  let cmdArgs := [VStr "run"] ++ runOptions_ ++ binds in
  spawnSync "docker" (cmdArgs ++ [VStr imageId; VStr "bash"]).

Definition pull (image : string) : M string := exec ("pull " +++ image).

Definition build (imagePath name : string) (tag : option value) : M string :=
  let tag_ := withDefault (VStr "latest") tag in
  exec ("build -t " +++ name +++ ":" +++ toString tag_ +++ " " +++ imagePath).

Definition loadImage (imagePath : string) : M string :=
  if negb (fileExists imagePath)
  then throw (Error ("Cannot load " +++ imagePath
                       +++ " as docker image: file does not exist."))
  else if path_extname imagePath =? ".gz"
       then logExec "gunzip" imagePath ;;;
            exec ("load -i " +++ replaceFirst ".gz" EmptyString imagePath)
       else exec ("load -i " +++ imagePath).

Definition verifyConnection : M bool :=
  tryCatch (exec "ps" ;;; ret true)
    (fun e => throw (Error ("Docker is not available: " +++ newline +++ message e))).

(** Computations that leave the SIGINT listeners of the host alone. *)
Definition keepsListeners {A : Type} (m : M A) : Prop :=
  forall w, sigintListeners (fst (m w)) = sigintListeners w.

(** ** Properties of the argument builders *)

Lemma append_assoc (a b c : string) : (a +++ b) +++ c = a +++ b +++ c.
Proof. induction a as [|x a IH]; cbn; [reflexivity|now rewrite IH]. Qed.

Lemma lookup_In (k : string) (o : obj) (v : value) :
  lookup k o = Some v -> In (k, v) o.
Proof.
  induction o as [|[k' v'] rest IH]; cbn; [discriminate|].
  destruct (k' =? k) eqn:E.
  - apply String.eqb_eq in E. intros [= ->]. subst. now left.
  - intros H. right. auto.
Qed.

Lemma lookup_app (k : string) (o1 o2 : obj) :
  lookup k (o1 ++ o2)
  = match lookup k o1 with Some v => Some v | None => lookup k o2 end.
Proof.
  induction o1 as [|[k' v'] rest IH]; cbn; [reflexivity|].
  now destruct (k' =? k).
Qed.

Lemma lookup_fillUndefined (k : string) (d o : obj) :
  lookup k (map (fillUndefined d) o)
  = match lookup k o with
    | Some VUndefined => Some (get k d)
    | r => r
    end.
Proof.
  induction o as [|[k' v'] rest IH]; cbn; [reflexivity|].
  unfold fillUndefined at 1; cbn.
  destruct (k' =? k) eqn:E.
  - apply String.eqb_eq in E; subst.
    destruct v'; cbn; rewrite String.eqb_refl; reflexivity.
  - destruct v'; cbn; rewrite E; exact IH.
Qed.

Lemma lookup_missing_defaults (k : string) (o d : obj) :
  lookup k o = None ->
  lookup k (filter (fun p => negb (hasKey (fst p) o)) d) = lookup k d.
Proof.
  intros Hnone.
  induction d as [|[k' v'] rest IH]; cbn; [reflexivity|].
  destruct (k' =? k) eqn:E.
  - apply String.eqb_eq in E; subst.
    unfold hasKey. rewrite Hnone. cbn. now rewrite String.eqb_refl.
  - destruct (negb (hasKey k' o)); cbn; [rewrite E|]; exact IH.
Qed.

(** What a property reads as after [_.opts]. *)
Lemma lookup_opts (k : string) (o d : obj) :
  lookup k (opts o d)
  = match lookup k o with
    | Some VUndefined => Some (get k d)
    | Some v => Some v
    | None => lookup k d
    end.
Proof.
  unfold opts. rewrite lookup_app, lookup_fillUndefined.
  destruct (lookup k o) as [v|] eqn:E.
  - now destruct v.
  - now apply lookup_missing_defaults.
Qed.

Lemma optionEntry_app (acc : list value) (p : string * value) :
  optionEntry acc p = acc ++ optionEntry [] p.
Proof.
  destruct p as [k v]. unfold optionEntry.
  destruct (negb (strictEqBool v false));
    destruct (negb (isNull v) && negb (isUndefined v) && negb (strictEqBool v true));
    cbn; rewrite <- ?app_assoc, ?app_nil_r; reflexivity.
Qed.

Lemma fold_optionEntry (o : obj) (acc : list value) :
  fold_left optionEntry o acc = acc ++ flat_map (optionEntry []) o.
Proof.
  revert acc. induction o as [|p rest IH]; intros acc; cbn.
  - now rewrite app_nil_r.
  - rewrite IH, optionEntry_app, <- app_assoc. reflexivity.
Qed.

(** An object that is not array-like is walked by its own properties. *)
Lemma visits_own (o : obj) : isArrayLike o = false -> visits o = o.
Proof. intros H. unfold visits. now rewrite H. Qed.

Lemma get_opts (k : string) (o d : obj) :
  get k (opts o d)
  = match lookup k o with
    | Some VUndefined | None => get k d
    | Some v => v
    end.
Proof.
  unfold get at 1. rewrite lookup_opts.
  destruct (lookup k o) as [v|]; [now destruct v|reflexivity].
Qed.

(** [_.opts] with defaults that have no [length] does not make an object
    array-like. *)
Lemma isArrayLike_opts (o d : obj) :
  isArrayLike o = false -> lookup "length" d = None ->
  isArrayLike (opts o d) = false.
Proof.
  unfold isArrayLike. intros Ho Hd. rewrite get_opts.
  unfold get in *. rewrite Hd.
  destruct (lookup "length" o) as [v|]; [|reflexivity].
  destruct v; try reflexivity; exact Ho.
Qed.

(** Mappings whose values are all strings or objects are not array-like. *)
Lemma valid_not_arrayLike (ms : obj) :
  (forall h v, In (h, v) ms -> isString v || isReallyObject v = true) ->
  isArrayLike ms = false.
Proof.
  intros Hvalid. unfold isArrayLike, get.
  destruct (lookup "length" ms) as [v|] eqn:E; [|reflexivity].
  apply lookup_In in E. specialize (Hvalid _ _ E).
  destruct v; try reflexivity; discriminate Hvalid.
Qed.

Lemma isArrayLike_app (a b : obj) :
  isArrayLike a = false -> isArrayLike b = false -> isArrayLike (a ++ b) = false.
Proof.
  unfold isArrayLike, get. rewrite lookup_app.
  now destruct (lookup "length" a).
Qed.

(** [_parseRunOptions] is the concatenation of what each visited option
    pushes. *)
Lemma parseRunOptions_flat_map (o : obj) :
  _parseRunOptions o = flat_map (optionEntry []) (visits o).
Proof. unfold _parseRunOptions. now rewrite fold_optionEntry. Qed.

Lemma parseRunOptions_flag (o : obj) (k : string) (v : value) :
  In (k, v) (visits o) -> strictEqBool v false = false ->
  In (VStr ("--" +++ k)) (_parseRunOptions o).
Proof.
  intros Hin Hv. rewrite parseRunOptions_flat_map.
  apply in_flat_map. exists (k, v). split; [exact Hin|].
  unfold optionEntry. rewrite Hv. cbn.
  destruct (negb (isNull v) && negb (isUndefined v) && negb (strictEqBool v true));
    cbn; auto.
Qed.

Lemma eachFrom_bindEntry_valid (ms : obj) (acc : list value) :
  (forall h v, In (h, v) ms -> isString v || isReallyObject v = true) ->
  eachFrom bindEntry ms acc
  = Ok (acc ++ flat_map (fun p => [VStr "-v"; VStr (bindSpec (snd p) (fst p))]) ms).
Proof.
  revert acc. induction ms as [|[h v] rest IH]; intros acc Hvalid; cbn.
  - now rewrite app_nil_r.
  - unfold bindEntry at 1. rewrite (Hvalid h v) by now left.
    rewrite IH by (intros h' v' Hin; apply (Hvalid h' v'); now right).
    now rewrite <- app_assoc.
Qed.

Lemma each_bindEntry_valid (ms : obj) (acc : list value) :
  (forall h v, In (h, v) ms -> isString v || isReallyObject v = true) ->
  each bindEntry ms acc
  = Ok (acc ++ flat_map (fun p => [VStr "-v"; VStr (bindSpec (snd p) (fst p))]) ms).
Proof.
  intros Hvalid. unfold each.
  rewrite (visits_own ms (valid_not_arrayLike ms Hvalid)).
  now apply eachFrom_bindEntry_valid.
Qed.

Lemma each_bindEntry_invalid (ms : obj) (acc : list value) :
  (exists h v, In (h, v) (visits ms) /\ isString v || isReallyObject v = false) ->
  exists v, isString v || isReallyObject v = false
            /\ each bindEntry ms acc = Err (invalidMappingSpec v).
Proof.
  unfold each. generalize (visits ms) as entries. clear ms. intros ms.
  revert acc. induction ms as [|[h v] rest IH]; intros acc (h0 & v0 & Hin & Hbad).
  - destruct Hin.
  - cbn. unfold bindEntry at 1.
    destruct (isString v || isReallyObject v) eqn:E.
    + apply IH. destruct Hin as [[= -> ->]|Hin]; [congruence|].
      now exists h0, v0.
    + now exists v.
Qed.

Lemma parseRunCommandArguments_eq (id : string) (cmd : command) (ro ms : obj) :
  _parseRunCommandArguments id cmd ro ms
  = match _getBinds ms with
    | Ok binds =>
        Ok ([VStr "run"] ++ binds
            ++ _parseRunOptions (opts ro [("interactive", VNull)])
            ++ [VStr id] ++ concatItems cmd)
    | Err e => Err e
    end.
Proof. reflexivity. Qed.

(** The default [interactive: null] survives unless the caller's own value
    for the key is [false]. *)
Lemma interactive_flag (ro : obj) :
  isArrayLike ro = false ->
  lookup "interactive" ro <> Some (VBool false) ->
  In (VStr "--interactive")
     (_parseRunOptions (opts ro [("interactive", VNull)])).
Proof.
  intros Hown Hnot.
  assert (exists v, lookup "interactive" (opts ro [("interactive", VNull)]) = Some v
                    /\ strictEqBool v false = false) as (v & Hv & Hb).
  { rewrite lookup_opts.
    destruct (lookup "interactive" ro) as [v|] eqn:E.
    - destruct v as [| |b| | |]; try (eexists; split; [reflexivity|reflexivity]).
      destruct b; [eexists; split; reflexivity|congruence].
    - eexists; split; reflexivity. }
  apply lookup_In in Hv.
  rewrite <- (visits_own _ (isArrayLike_opts ro [("interactive", VNull)]
                              Hown eq_refl)) in Hv.
  exact (parseRunOptions_flag _ _ _ Hv Hb).
Qed.

Lemma interactive_after_name (ro : obj) (name : value) :
  lookup "interactive" ro <> Some (VBool false) ->
  lookup "interactive" (opts ro [("name", name)]) <> Some (VBool false).
Proof.
  intros Hnot. rewrite lookup_opts.
  destruct (lookup "interactive" ro) as [v|] eqn:E.
  - destruct v; cbn; congruence.
  - cbn. discriminate.
Qed.

(** ** Properties of the effects *)

Lemma logWith_eq (lg : Logger) (l : level) (msg : string) (w : World) :
  logWith lg l msg w = (logged lg l msg w, Ret tt).
Proof. unfold logged. destruct lg, l; reflexivity. Qed.

Lemma spawns_logged (lg : Logger) (l : level) (msg : string) (w : World) :
  spawns (logged lg l msg w) = spawns w.
Proof. destruct lg, l; reflexivity. Qed.

Lemma completions_logged (lg : Logger) (l : level) (msg : string) (w : World) :
  completions (logged lg l msg w) = completions w.
Proof. destruct lg, l; reflexivity. Qed.

Lemma logs_logged_failure (lg : Logger) (msg : string) (w : World) :
  logs (logged lg Failure msg w) = logs w ++ [(loggerSink lg, Failure, msg)].
Proof. destruct lg; reflexivity. Qed.

Lemma exec_eq (cmd : string) (w : World) :
  exec cmd w
  = (addSpawn (RunProgram "docker" cmd) w,
     match runtime (spawns w) "docker" cmd with
     | Returns out => Ret out
     | Fails e => Throw e
     end).
Proof. unfold exec, runProgram. now destruct (runtime (spawns w) "docker" cmd). Qed.

(** The world once the [try]/[catch] of [_removeContainer] is over. *)
Lemma removeContainer_eq (containerId : value) (k : option (M unit))
  (opt : options) (w : World) :
  let f := withDefault false (force opt) in
  let lg := withDefault DummyLogger (logger opt) in
  let w1 := addSpawn (RunProgram "docker" (rmCommand f containerId)) w in
  _removeContainer containerId k opt w
  = match k with Some m => m | None => ret tt end
      match runtime (spawns w) "docker" (rmCommand f containerId) with
      | Returns _ => logged lg Debug "Temporary container successfully deleted" w1
      | Fails e => logged lg Failure ("Failed to delete container " +++ exnToString e) w1
      end.
Proof.
  intros f lg w1. unfold _removeContainer, tryCatch.
  unfold bind at 1. unfold bind at 1. rewrite exec_eq.
  fold f lg. fold w1.
  destruct (runtime (spawns w) "docker" (rmCommand f containerId)); cbn;
    rewrite logWith_eq; reflexivity.
Qed.

Lemma getContainerId_eq (name : value) (w : World) :
  getContainerId name w
  = (addSpawn (RunProgram "docker" (psCommand name)) w,
     match runtime (spawns w) "docker" (psCommand name) with
     | Returns out => Ret (nonEmptyOrNull (VStr (removeFirstNewline out)))
     | Fails e => Throw e
     end).
Proof.
  unfold getContainerId, bind. rewrite exec_eq.
  now destruct (runtime (spawns w) "docker" (psCommand name)).
Qed.

Lemma getImageId_eq (imageName : string) (w : World) :
  getImageId imageName w
  = (addSpawn (RunProgram "docker" (imagesCommand imageName)) w,
     match runtime (spawns w) "docker" (imagesCommand imageName) with
     | Returns out => Ret (nonEmptyOrNull (VStr (fst (splitLines out))))
     | Fails e => Throw e
     end).
Proof.
  unfold getImageId, bind. rewrite exec_eq.
  destruct (runtime (spawns w) "docker" (imagesCommand imageName)); [|reflexivity].
  unfold split_newline. now destruct (splitLines stdout).
Qed.

Lemma nonEmptyOrNull_string (s : string) :
  nonEmptyOrNull (VStr s) = if s =? EmptyString then VNull else VStr s.
Proof. unfold nonEmptyOrNull; cbn. now destruct (s =? EmptyString). Qed.

(** The first piece of [split('\n')] is the text before the first newline. *)
Lemma splitLines_first (s : string) :
  (forall c, In c (list_ascii_of_string (fst (splitLines s))) -> c <> "010"%char)
  /\ (s = fst (splitLines s)
      \/ exists rest, s = fst (splitLines s) +++ newline +++ rest).
Proof.
  induction s as [|c s [IHfree IHcut]]; cbn.
  - split; [intros c []|now left].
  - destruct (splitLines s) as [first more] eqn:E; cbn in *.
    destruct (Ascii.eqb c "010"%char) eqn:Ec; cbn.
    + apply Ascii.eqb_eq in Ec; subst. split; [intros c []|].
      right. exists s. reflexivity.
    + split.
      * intros c' [<-|Hin]; [|now apply IHfree].
        intros ->. now rewrite Ascii.eqb_refl in Ec.
      * destruct IHcut as [->|[rest ->]]; [now left|].
        right. exists rest. reflexivity.
Qed.

(** ** The option-flag builder *)

(** What one option contributes, by the kind of its value. *)
Lemma optionEntry_cases (k : string) (v : value) :
  optionEntry [] (k, v)
  = match v with
    | VBool true | VNull | VUndefined => [VStr ("--" +++ k)]
    | VBool false => [VBool false]
    | _ => [VStr ("--" +++ k); v]
    end.
Proof. destruct v as [| |[|]| | |]; reflexivity. Qed.

(** C3: a key whose value is [false] pushes no flag but does push the
    value [false] itself, so the generated argument list is not free of it:
    [{interactive: false}] yields the list [[false]], and [runInContainer]
    then runs [docker run false centos true]. *)
Theorem parseRunOptions_false_leaves_value :
  _parseRunOptions [("interactive", VBool false)] = [VBool false]
  /\ forall w,
       spawns (fst (runInContainer "centos" (CmdString "true")
                      (mkOptions None None None
                         (Some [("interactive", VBool false)]) None None) w))
       = spawns w ++ [RunProgram "docker" "run false centos true"].
Proof.
  split; [reflexivity|].
  intros w. unfold runInContainer. cbn -[exec]. unfold bind, ret.
  rewrite exec_eq. reflexivity.
Qed.

(** ** Container removal *)

(** C8: when the remove command fails, the failure is caught and logged at
    error level with the logger in force, and [_removeContainer] goes on to
    its callback; with a callback that does not throw, [_removeContainer]
    never throws, whatever the runtime answers. *)
Theorem removeContainer_failure_caught_and_logged
  (containerId : value) (k : option (M unit)) (opt : options) (w : World) :
  (forall m, k = Some m -> neverThrows m) ->
  (forall e, snd (_removeContainer containerId k opt w) <> Throw e)
  /\ (forall e,
        runtime (spawns w) "docker"
          (rmCommand (withDefault false (force opt)) containerId) = Fails e ->
        exists w1,
          logs w1
          = logs w ++ [(loggerSink (withDefault DummyLogger (logger opt)), Failure,
                        "Failed to delete container " +++ exnToString e)]
          /\ _removeContainer containerId k opt w
             = match k with Some m => m | None => ret tt end w1).
Proof.
  intros Hk. split.
  - intros e. rewrite removeContainer_eq.
    destruct k as [m|]; [now apply (Hk m)|]. cbn. discriminate.
  - intros e Hfail. rewrite removeContainer_eq, Hfail.
    eexists. split; [|reflexivity].
    now rewrite logs_logged_failure.
Qed.

(** The two callbacks index.js passes to [_removeContainer] do not throw. *)
Lemma exitOnEnd_callback_neverThrows (b : bool) :
  neverThrows (if b then processExit else ret tt).
Proof. intros w e. destruct b; discriminate. Qed.

(** C4, as the code has it: with an absent ([null]) identifier the remove
    command is still run, with the text [null] for the identifier; the call
    returns normally, and so does a second call right after it. *)
Theorem removeContainer_null_runs_command (opt : options) (w : World) :
  let once := _removeContainer VNull None opt w in
  spawns (fst once)
  = spawns w ++ [RunProgram "docker"
                   ("rm " +++ (if withDefault false (force opt) then "-f"
                               else EmptyString) +++ " null")]
  /\ snd once = Ret tt
  /\ snd (_removeContainer VNull None opt (fst once)) = Ret tt.
Proof.
  cbn zeta. rewrite !removeContainer_eq. cbn [ret fst snd].
  repeat split.
  destruct (runtime (spawns w) "docker" _); now rewrite spawns_logged.
Qed.

(** ** Image lookup *)

(** C10: [imageExists] answers [true] exactly when [getImageId] returns a
    value other than [null] (and fails when it fails); [getImageId] returns
    the text before the first newline of the listing, or [null] when that
    text is empty. *)
Theorem imageExists_iff_imageId (imageName : string) (w : World) :
  imageExists imageName w
  = (fst (getImageId imageName w),
     match snd (getImageId imageName w) with
     | Ret v => Ret (negb (isNull v))
     | Throw e => Throw e
     | Exit => Exit
     end)
  /\ forall out,
       runtime (spawns w) "docker" (imagesCommand imageName) = Returns out ->
       let first := fst (splitLines out) in
       snd (getImageId imageName w)
       = Ret (if first =? EmptyString then VNull else VStr first)
       /\ (forall c, In c (list_ascii_of_string first) -> c <> "010"%char)
       /\ (out = first \/ exists rest, out = first +++ newline +++ rest).
Proof.
  split.
  - unfold imageExists, bind. rewrite getImageId_eq. cbn [fst snd].
    destruct (runtime (spawns w) "docker" (imagesCommand imageName)); [|reflexivity].
    unfold ret. rewrite nonEmptyOrNull_string.
    destruct (fst (splitLines stdout) =? EmptyString) eqn:E; cbn; [reflexivity|].
    now rewrite E.
  - intros out Hout first. rewrite getImageId_eq, Hout. cbn [snd].
    rewrite nonEmptyOrNull_string. split; [reflexivity|].
    apply splitLines_first.
Qed.

(** ** The bind builder *)

(** C6: when every mapping value is a string or an object, [_getBinds]
    returns a flag list in which each entry with a string value contributes
    [-v host:container], with no mode segment, and each entry whose value is
    an object with a mode contributes [-v host:path:mode]. *)
Theorem getBinds_flags (ms : obj) :
  (forall h v, In (h, v) ms -> isString v || isReallyObject v = true) ->
  exists args,
    _getBinds ms = Ok args
    /\ forall host v, In (host, v) ms ->
         (forall c, v = VStr c ->
            exists pre post,
              args = pre ++ [VStr "-v"; VStr (host +++ ":" +++ c)] ++ post)
         /\ (forall o, v = VObj o -> truthy (get "mode" o) = true ->
               exists pre post,
                 args = pre ++ [VStr "-v";
                                VStr (host +++ ":" +++ toString (get "path" o)
                                        +++ ":" +++ toString (get "mode" o))]
                            ++ post).
Proof.
  intros Hvalid. unfold _getBinds. rewrite each_bindEntry_valid by exact Hvalid.
  eexists. split; [reflexivity|].
  intros host v Hin. apply in_split in Hin as (l1 & l2 & ->).
  rewrite flat_map_app. cbn [flat_map fst snd app].
  split.
  - intros c ->. eexists _, _. reflexivity.
  - intros o -> Hmode. eexists _, _.
    unfold bindSpec. cbn [isReallyObject prop]. rewrite Hmode.
    now rewrite append_assoc.
Qed.

(** The first value that is neither a string nor an object stops the
    builder. *)
Lemma getBinds_invalid (ms : obj) :
  (exists h v, In (h, v) (visits ms) /\ isString v || isReallyObject v = false) ->
  exists v, isString v || isReallyObject v = false
            /\ _getBinds ms = Err (invalidMappingSpec v).
Proof. apply each_bindEntry_invalid. Qed.

(** ** The run command *)

(** C5, as the code has it: for [runInContainer('centos', 'true',
    {mappings: {'/tmp/a': '/b'}})] the runtime is given
    [run -v /tmp/a:/b --interactive centos true]; in general the argument
    list is [run], the bind flags, the run options (among them the default
    [interactive]), the image, the command. *)
Theorem runInContainer_command_line :
  (forall w,
     spawns (fst (runInContainer "centos" (CmdString "true")
                    (mkOptions (Some [("/tmp/a", VStr "/b")]) None None None
                       None None) w))
     = spawns w ++ [RunProgram "docker" "run -v /tmp/a:/b --interactive centos true"])
  /\ forall id cmd ro ms,
       _parseRunCommandArguments id cmd ro ms
       = match _getBinds ms with
         | Ok binds =>
             Ok ([VStr "run"] ++ binds
                 ++ _parseRunOptions (opts ro [("interactive", VNull)])
                 ++ [VStr id] ++ concatItems cmd)
         | Err e => Err e
         end.
Proof.
  split; [|exact parseRunCommandArguments_eq].
  intros w. unfold runInContainer. cbn -[exec]. unfold bind, ret.
  rewrite exec_eq. reflexivity.
Qed.

(** ** Processes are only ever added *)

Create HintDb effects.

Lemma grows_ret {A : Type} (a : A) : growsSpawns (ret a).
Proof. intros w. exists []. cbn. now rewrite app_nil_r. Qed.

Lemma grows_throw {A : Type} (e : exn) : growsSpawns (@throw A e).
Proof. intros w. exists []. cbn. now rewrite app_nil_r. Qed.

Lemma grows_processExit : growsSpawns processExit.
Proof. intros w. exists []. cbn. now rewrite app_nil_r. Qed.

Lemma grows_bind {A B : Type} (m : M A) (k : A -> M B) :
  growsSpawns m -> (forall a, growsSpawns (k a)) -> growsSpawns (bind m k).
Proof.
  intros Hm Hk w. unfold bind. destruct (Hm w) as [more Hmore].
  destruct (m w) as [w1 [a| |]]; cbn in *; try now exists more.
  destruct (Hk a w1) as [more' Hmore'].
  exists (more ++ more'). now rewrite Hmore', Hmore, app_assoc.
Qed.

Lemma grows_tryCatch {A : Type} (m : M A) (h : exn -> M A) :
  growsSpawns m -> (forall e, growsSpawns (h e)) -> growsSpawns (tryCatch m h).
Proof.
  intros Hm Hh w. unfold tryCatch. destruct (Hm w) as [more Hmore].
  destruct (m w) as [w1 [a|e|]]; cbn in *; try now exists more.
  destruct (Hh e w1) as [more' Hmore'].
  exists (more ++ more'). now rewrite Hmore', Hmore, app_assoc.
Qed.

Lemma grows_exec (c : string) : growsSpawns (exec c).
Proof. intros w. rewrite exec_eq. now exists [RunProgram "docker" c]. Qed.

Lemma grows_logWith (lg : Logger) (l : level) (msg : string) :
  growsSpawns (logWith lg l msg).
Proof.
  intros w. rewrite logWith_eq. exists []. cbn.
  now rewrite spawns_logged, app_nil_r.
Qed.

Lemma grows_invoke (cb : callback) (c r : value) : growsSpawns (invoke cb c r).
Proof. intros w. exists []. destruct cb; cbn; now rewrite app_nil_r. Qed.

Lemma grows_liftResult {A : Type} (r : result A) : growsSpawns (liftResult r).
Proof. destruct r; [apply grows_ret|apply grows_throw]. Qed.

#[local] Hint Resolve grows_ret grows_throw grows_processExit grows_bind
  grows_tryCatch grows_exec grows_logWith grows_invoke grows_liftResult : effects.

Lemma grows_forEach {A : Type} (f : A -> M unit) (xs : list A) :
  (forall x, growsSpawns (f x)) -> growsSpawns (forEach f xs).
Proof. intros Hf. induction xs; cbn; auto with effects. Qed.

Lemma grows_getContainerId (name : value) : growsSpawns (getContainerId name).
Proof. unfold getContainerId. auto with effects. Qed.

Lemma grows_removeContainer (containerId : value) (k : option (M unit))
  (opt : options) :
  (forall m, k = Some m -> growsSpawns m) ->
  growsSpawns (_removeContainer containerId k opt).
Proof.
  intros Hk. unfold _removeContainer.
  apply grows_bind; [auto 6 with effects|].
  intros _. destruct k; auto with effects.
Qed.

Lemma grows_onExit (cb : callback) (opt : options) (res : value) :
  growsSpawns (onExit cb opt res).
Proof.
  unfold onExit. apply grows_bind; [apply grows_getContainerId|].
  intros containerId. apply grows_bind; [apply grows_invoke|].
  intros _. apply grows_removeContainer.
  intros m [= <-]. destruct (asyncExitOnEnd opt); auto with effects.
Qed.

Lemma grows_deliver (cb : callback) (opt : options) (evs : list event) :
  growsSpawns (deliver (onStdout opt) (onStderr opt) (onExit cb opt)
                 (sigintListener cb opt) evs).
Proof.
  unfold deliver. apply grows_forEach. intros [msg|msg| |res]; cbn.
  - apply grows_forEach. auto with effects.
  - apply grows_forEach. auto with effects.
  - apply grows_onExit.
  - apply grows_onExit.
Qed.

Lemma grows_wait (ending : waitEnd) : growsSpawns (wait ending).
Proof. destruct ending; cbn; auto with effects. Qed.

(** ** The asynchronous run *)

Lemma runInContainerAsync_eq (id : string) (cmd : command) (cb : callback)
  (opt : options) (child : Child) (w : World) (args : list value) :
  _parseRunCommandArguments id cmd (asyncRunOptions opt) (asyncMappings opt)
  = Ok args ->
  runInContainerAsync id cmd cb opt child w
  = tryCatch
      (deliver (onStdout opt) (onStderr opt) (onExit cb opt)
         (sigintListener cb opt) (fst (child (asyncTimeout opt))) ;;;
       wait (snd (child (asyncTimeout opt))))
      (fun e =>
         containerId <- getContainerId (get "name" (asyncRunOptions opt)) ;;
         _removeContainer containerId None
           (mkOptions None None None None None (Some true)) ;;;
         throw e)
      (addSpawn (ExecAsync ("docker " +++ join " " args)) (addListener w)).
Proof. intros H. unfold runInContainerAsync. rewrite H. reflexivity. Qed.

Lemma runInContainerAsync_invalid (id : string) (cmd : command) (cb : callback)
  (opt : options) (child : Child) (w : World) (e : exn) :
  _parseRunCommandArguments id cmd (asyncRunOptions opt) (asyncMappings opt)
  = Err e ->
  runInContainerAsync id cmd cb opt child w = (addListener w, Throw e).
Proof. intros H. unfold runInContainerAsync. rewrite H. reflexivity. Qed.

(** C7: a mapping value that is neither a string nor an object makes
    [_getBinds] throw the invalid-mapping-spec error, and both entry points
    fail with it without having spawned any process. The mappings are an
    ordinary map, walked by its keys: not an object that a numeric [length]
    makes array-like. *)
Theorem invalid_mapping_fails_before_spawn (id : string) (cmd : command)
  (cb : callback) (opt : options) (child : Child) (w : World) (ms : obj) :
  mappings opt = Some ms ->
  isArrayLike ms = false ->
  (exists h v, In (h, v) ms /\ isString v || isReallyObject v = false) ->
  exists v,
    isString v || isReallyObject v = false
    /\ _getBinds ms = Err (invalidMappingSpec v)
    /\ runInContainer id cmd opt w = (w, Throw (invalidMappingSpec v))
    /\ runInContainerAsync id cmd cb opt child w
       = (addListener w, Throw (invalidMappingSpec v))
    /\ spawns (addListener w) = spawns w.
Proof.
  intros Hms Hown Hbad. rewrite <- (visits_own ms Hown) in Hbad.
  destruct (getBinds_invalid ms Hbad) as (v & Hv & Herr).
  exists v. repeat split; try assumption.
  - unfold runInContainer. rewrite Hms. cbn [withDefault].
    rewrite parseRunCommandArguments_eq, Herr. reflexivity.
  - apply runInContainerAsync_invalid.
    unfold asyncMappings. rewrite Hms. cbn [withDefault].
    rewrite parseRunCommandArguments_eq, Herr. reflexivity.
Qed.

Lemma join_app (sep : string) (xs ys : list value) :
  xs <> [] -> ys <> [] ->
  join sep (xs ++ ys) = join sep xs +++ sep +++ join sep ys.
Proof.
  intros Hxs Hys. induction xs as [|x xs IH]; [contradiction|].
  destruct xs as [|x' xs].
  - destruct ys as [|y ys]; [contradiction|]. reflexivity.
  - change (join sep ((x :: x' :: xs) ++ ys))
      with (joinItem x +++ sep +++ join sep ((x' :: xs) ++ ys)).
    rewrite IH by discriminate.
    change (join sep (x :: x' :: xs))
      with (joinItem x +++ sep +++ join sep (x' :: xs)).
    now rewrite !append_assoc.
Qed.

(** The text of a command line around the flag [--interactive]. *)
Lemma join_interactive (pre post : list value) :
  pre <> [] -> post <> [] ->
  join " " (pre ++ [VStr "--interactive"] ++ post)
  = join " " pre +++ " --interactive " +++ join " " post.
Proof.
  intros Hpre Hpost.
  rewrite join_app by (exact Hpre || discriminate).
  rewrite join_app by (exact Hpost || discriminate).
  reflexivity.
Qed.

(** The arguments of a run around the flag [--interactive]. *)
Lemma interactive_in_args (id : string) (cmd : command) (ro : obj)
  (binds : list value) :
  isArrayLike ro = false ->
  lookup "interactive" ro <> Some (VBool false) ->
  exists pre post,
    pre <> [] /\ post <> []
    /\ [VStr "run"] ++ binds
       ++ _parseRunOptions (opts ro [("interactive", VNull)])
       ++ [VStr id] ++ concatItems cmd
       = pre ++ [VStr "--interactive"] ++ post.
Proof.
  intros Hown Hnot.
  destruct (in_split _ _ (interactive_flag ro Hown Hnot)) as (l1 & l2 & ->).
  exists ([VStr "run"] ++ binds ++ l1), (l2 ++ [VStr id] ++ concatItems cmd).
  split; [discriminate|]. split.
  - intros H. apply app_eq_nil in H as [_ H]. discriminate H.
  - cbn [app]. rewrite <- !app_assoc. reflexivity.
Qed.

(** C9: unless the caller's run options set [interactive] to [false], the
    argument list built for [runInContainer] and for [runInContainerAsync]
    contains [--interactive], and the command line handed to the runtime
    has the text [ --interactive ] between the text of the arguments before
    the flag and the text of those after it. The run options are an
    ordinary map, not an object that a numeric [length] makes array-like. *)
Theorem interactive_by_default (id : string) (cmd : command) (cb : callback)
  (opt : options) (child : Child) (w : World) (binds : list value) :
  _getBinds (withDefault [] (mappings opt)) = Ok binds ->
  isArrayLike (withDefault [] (runOptions opt)) = false ->
  lookup "interactive" (withDefault [] (runOptions opt)) <> Some (VBool false) ->
  (exists pre post,
     _parseRunCommandArguments id cmd (withDefault [] (runOptions opt))
       (withDefault [] (mappings opt))
     = Ok (pre ++ [VStr "--interactive"] ++ post)
     /\ spawns (fst (runInContainer id cmd opt w))
        = spawns w ++ [RunProgram "docker"
                         (join " " pre +++ " --interactive " +++ join " " post)])
  /\ (exists pre post more,
        _parseRunCommandArguments id cmd (asyncRunOptions opt)
          (asyncMappings opt)
        = Ok (pre ++ [VStr "--interactive"] ++ post)
        /\ spawns (fst (runInContainerAsync id cmd cb opt child w))
           = spawns w ++ ExecAsync ("docker " +++ join " " pre
                                      +++ " --interactive " +++ join " " post)
                         :: more).
Proof.
  intros Hbinds Hown Hnot. split.
  - destruct (interactive_in_args id cmd _ binds Hown Hnot)
      as (pre & post & Hpre & Hpost & Hsplit).
    assert (_parseRunCommandArguments id cmd (withDefault [] (runOptions opt))
              (withDefault [] (mappings opt))
            = Ok (pre ++ [VStr "--interactive"] ++ post)) as Hargs.
    { rewrite parseRunCommandArguments_eq, Hbinds. now rewrite Hsplit. }
    exists pre, post. split; [exact Hargs|].
    unfold runInContainer. rewrite Hargs. cbn [liftResult].
    unfold bind, ret. rewrite exec_eq. cbn [fst spawns addSpawn].
    now rewrite (join_interactive pre post Hpre Hpost).
  - pose proof (interactive_after_name _ (VStr strftime_s) Hnot) as Hnot'.
    pose proof (isArrayLike_opts _ [("name", VStr strftime_s)] Hown eq_refl)
      as Hown'.
    destruct (interactive_in_args id cmd _ binds Hown' Hnot')
      as (pre & post & Hpre & Hpost & Hsplit).
    assert (_parseRunCommandArguments id cmd (asyncRunOptions opt)
              (asyncMappings opt)
            = Ok (pre ++ [VStr "--interactive"] ++ post)) as Hargs.
    { rewrite parseRunCommandArguments_eq. unfold asyncMappings.
      rewrite Hbinds. unfold asyncRunOptions. now rewrite Hsplit. }
    rewrite (runInContainerAsync_eq _ _ _ _ _ _ _ Hargs).
    match goal with
    | |- context [tryCatch ?m ?h ?w0] =>
        assert (growsSpawns (tryCatch m h)) as Hgrow
    end.
    { apply grows_tryCatch.
      - apply grows_bind; [apply grows_deliver|intros _; apply grows_wait].
      - intros e. apply grows_bind; [apply grows_getContainerId|].
        intros c. apply grows_bind; [|auto with effects].
        apply grows_removeContainer. discriminate. }
    match goal with
    | |- context [tryCatch ?m ?h ?w0] => destruct (Hgrow w0) as [more Hmore]
    end.
    exists pre, post, more. split; [exact Hargs|].
    rewrite Hmore. cbn [spawns addSpawn addListener].
    rewrite (join_interactive pre post Hpre Hpost).
    now rewrite <- app_assoc.
Qed.

(** ** Termination of the asynchronous run *)

Lemma forEach_logWith (lg : Logger) (l : level) (g : string -> string)
  (xs : list string) (w : World) :
  exists w',
    forEach (fun line => logWith lg l (g line)) xs w = (w', Ret tt)
    /\ completions w' = completions w
    /\ spawns w' = spawns w.
Proof.
  revert w. induction xs as [|x rest IH]; intros w; cbn.
  - now exists w.
  - unfold bind. rewrite logWith_eq.
    destruct (IH (logged lg l (g x) w)) as (w' & -> & Hc & Hs).
    exists w'. now rewrite Hc, Hs, completions_logged, spawns_logged.
Qed.

Lemma onStdout_logs (opt : options) (msg : string) (w : World) :
  exists w',
    onStdout opt msg w = (w', Ret tt)
    /\ completions w' = completions w /\ spawns w' = spawns w.
Proof. apply forEach_logWith with (g := fun line => "[docker] " +++ line). Qed.

Lemma onStderr_logs (opt : options) (msg : string) (w : World) :
  exists w',
    onStderr opt msg w = (w', Ret tt)
    /\ completions w' = completions w /\ spawns w' = spawns w.
Proof. apply forEach_logWith with (g := fun line => "[docker] " +++ line). Qed.

(** The catch block of [runInContainerAsync]: lookup by name, forced
    removal, then the caught error again. *)
Lemma timeout_handler_eq (name : value) (e : exn) (w : World) (out : string) :
  runtime (spawns w) "docker" (psCommand name) = Returns out ->
  let containerId := nonEmptyOrNull (VStr (removeFirstNewline out)) in
  exists w',
    (containerId' <- getContainerId name ;;
     _removeContainer containerId' None
       (mkOptions None None None None None (Some true)) ;;;
     @throw unit e) w = (w', Throw e)
    /\ spawns w'
       = spawns w ++ [RunProgram "docker" (psCommand name);
                      RunProgram "docker" (rmCommand true containerId)]
    /\ completions w' = completions w.
Proof.
  intros Hout containerId. unfold bind at 1. rewrite getContainerId_eq, Hout.
  fold containerId. unfold bind. rewrite removeContainer_eq.
  cbn [withDefault force logger ret throw].
  eexists. split; [reflexivity|].
  destruct (runtime _ "docker" (rmCommand true containerId));
    rewrite spawns_logged, completions_logged; cbn; now rewrite <- app_assoc.
Qed.

(** One run of the termination sequence. *)
Lemma onExit_once (cb : callback) (opt : options) (res : value) (w : World) :
  lookupsSucceed ->
  exists w',
    onExit cb opt res w
    = (w', if asyncExitOnEnd opt then Exit else Ret tt)
    /\ length (completions w')
       = length (completions w) + invocations cb false 1.
Proof.
  intros Hlook. unfold onExit. unfold bind at 1. rewrite getContainerId_eq.
  destruct (Hlook (spawns w) (get "name" (asyncRunOptions opt))) as [out ->].
  unfold bind. destruct cb; cbn [invoke ret];
    rewrite removeContainer_eq; cbn [withDefault force logger];
    destruct (asyncExitOnEnd opt); cbn [processExit ret];
    (eexists; split; [reflexivity|]);
    destruct (runtime _ "docker" _);
    rewrite completions_logged; cbn; rewrite ?length_app; cbn; lia.
Qed.

Lemma deliver_counts (cb : callback) (opt : options) (evs : list event)
  (w : World) :
  lookupsSucceed ->
  exists w',
    deliver (onStdout opt) (onStderr opt) (onExit cb opt)
      (sigintListener cb opt) evs w
    = (w', if asyncExitOnEnd opt && (0 <? length (triggers evs))%nat
           then Exit else Ret tt)
    /\ length (completions w')
       = length (completions w)
         + invocations cb (asyncExitOnEnd opt) (length (triggers evs)).
Proof.
  intros Hlook. revert w.
  induction evs as [|ev rest IH]; intros w.
  - exists w. rewrite andb_false_r. split; [reflexivity|].
    unfold invocations. cbn. destruct cb, (asyncExitOnEnd opt); cbn; lia.
  - unfold deliver in *. cbn [forEach]. unfold bind at 1.
    assert (forall res,
      exists w',
        (let (w1, r) := onExit cb opt res w in
         match r with
         | Ret a =>
             forEach (dispatch (onStdout opt) (onStderr opt) (onExit cb opt)
                        (sigintListener cb opt)) rest w1
         | Throw e => (w1, Throw e)
         | Exit => (w1, Exit)
         end)
        = (w', if asyncExitOnEnd opt && (0 <? S (length (triggers rest)))%nat
               then Exit else Ret tt)
        /\ length (completions w')
           = length (completions w)
             + invocations cb (asyncExitOnEnd opt) (S (length (triggers rest))))
      as Htrigger.
    { intros res.
      destruct (onExit_once cb opt res w Hlook) as (w1 & -> & Hlen).
      destruct (asyncExitOnEnd opt) eqn:Ex; cbv beta iota; cbn [andb].
      - exists w1. split; [reflexivity|]. rewrite Hlen.
        destruct cb; cbn; lia.
      - destruct (IH w1) as (w' & -> & Hlen').
        exists w'. split; [reflexivity|]. rewrite Hlen', Hlen.
        destruct cb; cbn; lia. }
    destruct ev as [msg|msg| |res]; cbn [dispatch triggers filter isTrigger length].
    + destruct (onStdout_logs opt msg w) as (w1 & -> & Hc & _).
      cbv beta iota.
      destruct (IH w1) as (w' & -> & Hlen').
      exists w'. split; [reflexivity|]. now rewrite Hlen', Hc.
    + destruct (onStderr_logs opt msg w) as (w1 & -> & Hc & _).
      cbv beta iota.
      destruct (IH w1) as (w' & -> & Hlen').
      exists w'. split; [reflexivity|]. now rewrite Hlen', Hc.
    + apply Htrigger.
    + apply Htrigger.
Qed.

(** The [try] block and its handler, from the world the child was spawned
    in. *)
Lemma waitBlock_counts (cb : callback) (opt : options) (child : Child)
  (w0 : World) :
  lookupsSucceed ->
  exists w',
    tryCatch
      (deliver (onStdout opt) (onStderr opt) (onExit cb opt)
         (sigintListener cb opt) (fst (child (asyncTimeout opt))) ;;;
       wait (snd (child (asyncTimeout opt))))
      (fun e =>
         containerId <- getContainerId (get "name" (asyncRunOptions opt)) ;;
         _removeContainer containerId None
           (mkOptions None None None None None (Some true)) ;;;
         throw e) w0
    = (w', if asyncExitOnEnd opt
              && (0 <? length (triggers (fst (child (asyncTimeout opt)))))%nat
           then Exit
           else match snd (child (asyncTimeout opt)) with
                | Returned => Ret tt
                | TimedOut e => Throw e
                end)
    /\ length (completions w')
       = length (completions w0)
         + invocations cb (asyncExitOnEnd opt)
             (length (triggers (fst (child (asyncTimeout opt))))).
Proof.
  intros Hlook.
  destruct (deliver_counts cb opt (fst (child (asyncTimeout opt))) w0 Hlook)
    as (w1 & Hd & Hlen).
  unfold tryCatch. unfold bind at 1. rewrite Hd.
  destruct (asyncExitOnEnd opt && _); cbv beta iota.
  - now exists w1.
  - destruct (snd (child (asyncTimeout opt))) as [|e]; cbn [wait ret throw].
    + now exists w1.
    + destruct (Hlook (spawns w1) (get "name" (asyncRunOptions opt)))
        as [out Hout].
      destruct (timeout_handler_eq _ e w1 out Hout) as (w' & -> & _ & Hc).
      exists w'. now rewrite Hc.
Qed.

(** C1, as the code has it: the termination sequence has no once-only
    guard. On a host that carries no SIGINT listener of an earlier call,
    and with a runtime that answers the lookups, every trigger delivered
    during the wait (process exit or SIGINT) runs it once more, so the
    callback is invoked once per trigger, or once at most when [exitOnEnd]
    ends the host after the first; the timeout path adds no invocation. *)
Theorem onComplete_once_per_trigger (id : string) (cmd : command)
  (cb : callback) (opt : options) (child : Child) (w : World)
  (args : list value) :
  sigintListeners w = 0 ->
  lookupsSucceed ->
  _parseRunCommandArguments id cmd (asyncRunOptions opt) (asyncMappings opt)
  = Ok args ->
  let n := length (triggers (fst (child (asyncTimeout opt)))) in
  let run := runInContainerAsync id cmd cb opt child w in
  length (completions (fst run))
  = length (completions w) + invocations cb (asyncExitOnEnd opt) n
  /\ snd run
     = if asyncExitOnEnd opt && (0 <? n)%nat then Exit
       else match snd (child (asyncTimeout opt)) with
            | Returned => Ret tt
            | TimedOut e => Throw e
            end.
Proof.
  intros _ Hlook Hargs n run. subst run.
  rewrite (runInContainerAsync_eq _ _ _ _ _ _ _ Hargs).
  destruct (waitBlock_counts cb opt child
              (addSpawn (ExecAsync ("docker " +++ join " " args)) (addListener w))
              Hlook) as (w' & -> & Hlen).
  cbn [fst snd]. split; [exact Hlen|reflexivity].
Qed.

(** Output of the child alone starts no process and invokes no callback. *)
Lemma deliver_quiet (cb : callback) (opt : options) (evs : list event)
  (w : World) :
  triggers evs = [] ->
  exists w',
    deliver (onStdout opt) (onStderr opt) (onExit cb opt)
      (sigintListener cb opt) evs w = (w', Ret tt)
    /\ spawns w' = spawns w
    /\ completions w' = completions w.
Proof.
  revert w. induction evs as [|ev rest IH]; intros w Hquiet.
  - now exists w.
  - unfold deliver in *. cbn [forEach]. unfold bind.
    destruct ev as [msg|msg| |res]; try discriminate Hquiet; cbn [dispatch].
    + destruct (onStdout_logs opt msg w) as (w1 & -> & Hc & Hs).
      destruct (IH w1 Hquiet) as (w' & -> & Hs' & Hc').
      exists w'. now rewrite Hs', Hc', Hs, Hc.
    + destruct (onStderr_logs opt msg w) as (w1 & -> & Hc & Hs).
      destruct (IH w1 Hquiet) as (w' & -> & Hs' & Hc').
      exists w'. now rewrite Hs', Hc', Hs, Hc.
Qed.

(** C2, as the code has it: when the wait ends on the deadline and neither
    the exit of the child nor an interrupt was delivered before it, the
    callback is not invoked and the controller looks the container up by
    its name. If the lookup answers, it force-removes the container,
    whatever the removal answers, and throws the timeout failure again; if
    the lookup fails, nothing is removed and the failure of the lookup is
    what the caller receives. *)
Theorem timeout_removes_then_rethrows (id : string) (cmd : command)
  (cb : callback) (opt : options) (child : Child) (w : World)
  (args : list value) (evs : list event) (e : exn) :
  _parseRunCommandArguments id cmd (asyncRunOptions opt) (asyncMappings opt)
  = Ok args ->
  child (asyncTimeout opt) = (evs, TimedOut e) ->
  triggers evs = [] ->
  let name := get "name" (asyncRunOptions opt) in
  let launched := spawns w ++ [ExecAsync ("docker " +++ join " " args)] in
  let run := runInContainerAsync id cmd cb opt child w in
  completions (fst run) = completions w
  /\ psCommand name
     = "ps -aq --filter " +++ dquote +++ "name=" +++ toString name +++ dquote
  /\ (forall c, rmCommand true c = "rm -f " +++ toString c)
  /\ match runtime launched "docker" (psCommand name) with
     | Returns out =>
         snd run = Throw e
         /\ spawns (fst run)
            = launched
              ++ [RunProgram "docker" (psCommand name);
                  RunProgram "docker"
                    (rmCommand true
                       (nonEmptyOrNull (VStr (removeFirstNewline out))))]
     | Fails e' =>
         snd run = Throw e'
         /\ spawns (fst run) = launched ++ [RunProgram "docker" (psCommand name)]
     end.
Proof.
  intros Hargs Hchild Hquiet name launched run. subst run.
  rewrite (runInContainerAsync_eq _ _ _ _ _ _ _ Hargs).
  set (w0 := addSpawn (ExecAsync ("docker " +++ join " " args)) (addListener w)).
  fold name.
  destruct (deliver_quiet cb opt evs w0 Hquiet) as (w1 & Hd & Hs & Hc).
  change (spawns w0) with launched in Hs.
  change (completions w0) with (completions w) in Hc.
  assert (forall r,
            (containerId <- getContainerId name ;;
             _removeContainer containerId None
               (mkOptions None None None None None (Some true)) ;;;
             @throw unit e) w1 = r ->
            tryCatch
              (deliver (onStdout opt) (onStderr opt) (onExit cb opt)
                 (sigintListener cb opt) (fst (child (asyncTimeout opt))) ;;;
               wait (snd (child (asyncTimeout opt))))
              (fun e0 =>
                 containerId <- getContainerId name ;;
                 _removeContainer containerId None
                   (mkOptions None None None None None (Some true)) ;;;
                 throw e0) w0 = r) as Hcatch.
  { intros r <-. unfold tryCatch. unfold bind at 1. rewrite Hchild.
    cbn [fst snd]. rewrite Hd. reflexivity. }
  destruct (runtime launched "docker" (psCommand name)) as [out|e'] eqn:Hreply.
  - rewrite <- Hs in Hreply.
    destruct (timeout_handler_eq name e w1 out Hreply) as (w' & Hh & Hs' & Hc').
    rewrite (Hcatch _ Hh). cbn [fst snd].
    rewrite Hc', Hc, Hs', Hs. now repeat split.
  - rewrite <- Hs in Hreply.
    assert ((containerId <- getContainerId name ;;
             _removeContainer containerId None
               (mkOptions None None None None None (Some true)) ;;;
             @throw unit e) w1
            = (addSpawn (RunProgram "docker" (psCommand name)) w1, Throw e'))
      as Hh.
    { unfold bind at 1. now rewrite getContainerId_eq, Hreply. }
    rewrite (Hcatch _ Hh). cbn [fst snd completions addSpawn spawns].
    rewrite Hc, Hs. now repeat split.
Qed.

(** ** Further properties of the argument builders *)

(** X1: options of ordinary maps (not array-like) contribute independently
    and in order: the flags of two option maps put one after the other are
    the flags of the first followed by the flags of the second. *)
Theorem parseRunOptions_app (a b : obj) :
  isArrayLike a = false -> isArrayLike b = false ->
  _parseRunOptions (a ++ b) = _parseRunOptions a ++ _parseRunOptions b.
Proof.
  intros Ha Hb. rewrite !parseRunOptions_flat_map.
  rewrite (visits_own _ Ha), (visits_own _ Hb),
    (visits_own _ (isArrayLike_app a b Ha Hb)).
  apply flat_map_app.
Qed.

Lemma parseRunOptions_at (ro : obj) (k : string) (v : value) :
  isArrayLike ro = false ->
  In (k, v) ro ->
  strictEqBool v false = false ->
  exists pre post,
    _parseRunOptions ro
    = pre ++ match v with
             | VBool _ | VNull | VUndefined => [VStr ("--" +++ k)]
             | _ => [VStr ("--" +++ k); v]
             end
          ++ post.
Proof.
  intros Hown Hin Hv. apply in_split in Hin as (before & after & ->).
  rewrite parseRunOptions_flat_map, (visits_own _ Hown), flat_map_app.
  cbn [flat_map].
  exists (flat_map (optionEntry []) before), (flat_map (optionEntry []) after).
  f_equal. f_equal.
  rewrite optionEntry_cases. destruct v as [| |[|]| | |]; try reflexivity.
  discriminate Hv.
Qed.


(** An array-like option map is walked by its indices: [{length: 1, name:
    'x'}] gives the flag of the index 0 and nothing for [name]. *)
Lemma parseRunOptions_arrayLike_example :
  _parseRunOptions [("length", VNum 1); ("name", VStr "x")] = [VStr "--0"]
  /\ _parseRunOptions [("length", VNum 0); ("interactive", VNull)] = [].
Proof. split; reflexivity. Qed.

Lemma eachFrom_app {Acc : Type} (f : value -> string -> Acc -> result Acc)
  (o1 o2 : obj) (acc : Acc) :
  eachFrom f (o1 ++ o2) acc
  = match eachFrom f o1 acc with
    | Ok acc' => eachFrom f o2 acc'
    | Err e => Err e
    end.
Proof.
  revert acc. induction o1 as [|[k v] rest IH]; intros acc; cbn; [reflexivity|].
  destruct (f v k acc); [apply IH|reflexivity].
Qed.

(** X3: for mappings that are an ordinary map (not array-like), the error
    of [_getBinds] names the first value, in enumeration order, that is
    neither a string nor an object, whatever follows it. *)
Theorem getBinds_first_invalid (before after : obj) (h : string) (v : value) :
  isArrayLike (before ++ (h, v) :: after) = false ->
  (forall h' v', In (h', v') before -> isString v' || isReallyObject v' = true) ->
  isString v || isReallyObject v = false ->
  _getBinds (before ++ (h, v) :: after) = Err (invalidMappingSpec v).
Proof.
  intros Hown Hvalid Hbad. unfold _getBinds, each.
  rewrite (visits_own _ Hown).
  rewrite eachFrom_app, eachFrom_bindEntry_valid by exact Hvalid.
  cbn [eachFrom]. unfold bindEntry at 1. now rewrite Hbad.
Qed.

(** X4: an object without a truthy [mode] property - for instance one that
    spells the key [mod] - is bound without a mode segment, and its [path]
    is converted to text even when it is missing. *)
Theorem getBinds_object_without_mode (ms : obj) (host : string) (o : obj) :
  (forall h v, In (h, v) ms -> isString v || isReallyObject v = true) ->
  In (host, VObj o) ms ->
  truthy (get "mode" o) = false ->
  exists args pre post,
    _getBinds ms = Ok args
    /\ args = pre ++ [VStr "-v"; VStr (host +++ ":" +++ toString (get "path" o))]
                  ++ post.
Proof.
  intros Hvalid Hin Hmode. unfold _getBinds.
  rewrite each_bindEntry_valid by exact Hvalid.
  apply in_split in Hin as (l1 & l2 & ->).
  rewrite flat_map_app. cbn [flat_map fst snd app].
  eexists _, _, _. split; [reflexivity|].
  unfold bindSpec. cbn [isReallyObject prop]. rewrite Hmode. reflexivity.
Qed.

(** X5: when [_getBinds] returns for mappings that are an ordinary map (not
    array-like), every mapping value was a string or an object and every
    entry has contributed exactly two arguments. *)
Theorem getBinds_two_per_entry (ms : obj) (args : list value) :
  isArrayLike ms = false ->
  _getBinds ms = Ok args ->
  (forall h v, In (h, v) ms -> isString v || isReallyObject v = true)
  /\ length args = 2 * length ms.
Proof.
  intros Hown Hok.
  assert (forall h v, In (h, v) ms -> isString v || isReallyObject v = true)
    as Hvalid.
  { intros h v Hin.
    destruct (isString v || isReallyObject v) eqn:E; [reflexivity|].
    destruct (getBinds_invalid ms) as (v' & _ & Herr).
    - rewrite (visits_own ms Hown). now exists h, v.
    - congruence. }
  split; [exact Hvalid|].
  unfold _getBinds in Hok. rewrite each_bindEntry_valid in Hok by exact Hvalid.
  injection Hok as <-. cbn [app].
  clear Hvalid Hown. induction ms as [|p rest IH]; cbn; [reflexivity|].
  rewrite IH. lia.
Qed.

(** Array-like mappings are walked by their indices: with [length: 0]
    nothing is visited, so an invalid value goes unnoticed. *)
Lemma getBinds_arrayLike_example :
  _getBinds [("/tmp/a", VNum 42); ("length", VNum 0)] = Ok [].
Proof. reflexivity. Qed.

(** ** Lines of output *)

Lemma occurs_newline_cons (c : ascii) (s : string) :
  occurs newline (String c s) = false ->
  Ascii.eqb c "010"%char = false /\ occurs newline s = false.
Proof.
  unfold newline. cbn -[Ascii.eqb]. rewrite (Ascii.eqb_sym "010"%char c).
  destruct (Ascii.eqb c "010"%char); cbn; [discriminate|]. now split.
Qed.

Lemma occurs_newline_intro (c : ascii) (s : string) :
  Ascii.eqb c "010"%char = false -> occurs newline s = false ->
  occurs newline (String c s) = false.
Proof.
  intros Hc Hs. unfold newline in *. cbn -[Ascii.eqb].
  now rewrite (Ascii.eqb_sym "010"%char c), Hc.
Qed.

Lemma removeFirstNewline_app (first rest : string) :
  occurs newline first = false ->
  removeFirstNewline (first +++ newline +++ rest) = first +++ rest.
Proof.
  induction first as [|c first IH]; intros Hfree; [reflexivity|].
  apply occurs_newline_cons in Hfree as [Hc Hfree].
  cbn. rewrite Hc. now rewrite <- IH.
Qed.

Lemma removeFirstNewline_none (s : string) :
  occurs newline s = false -> removeFirstNewline s = s.
Proof.
  induction s as [|c s IH]; intros Hfree; [reflexivity|].
  apply occurs_newline_cons in Hfree as [Hc Hfree].
  cbn. rewrite Hc. now rewrite IH.
Qed.

Lemma splitLines_none (l : string) :
  occurs newline l = false -> splitLines l = (l, []).
Proof.
  induction l as [|c l IH]; intros Hfree; [reflexivity|].
  apply occurs_newline_cons in Hfree as [Hc Hfree].
  cbn. rewrite (IH Hfree), Hc. reflexivity.
Qed.

Lemma split_newline_app (l s : string) :
  occurs newline l = false ->
  split_newline (l +++ newline +++ s) = l :: split_newline s.
Proof.
  intros Hfree. unfold split_newline.
  assert (splitLines (l +++ newline +++ s)
          = (l, fst (splitLines s) :: snd (splitLines s))) as ->.
  { induction l as [|c l IH].
    - unfold newline. cbn. now destruct (splitLines s).
    - apply occurs_newline_cons in Hfree as [Hc Hfree].
      change (String c l +++ newline +++ s)
        with (String c (l +++ newline +++ s)).
      cbn [splitLines]. now rewrite (IH Hfree), Hc. }
  now destruct (splitLines s).
Qed.

Lemma splitLines_pieces (s : string) :
  occurs newline (fst (splitLines s)) = false
  /\ Forall (fun l => occurs newline l = false) (snd (splitLines s)).
Proof.
  induction s as [|c s [IHfirst IHmore]]; cbn.
  - split; [reflexivity|constructor].
  - destruct (splitLines s) as [first more]; cbn in *.
    destruct (Ascii.eqb c "010"%char) eqn:Ec; cbn.
    + split; [reflexivity|]. now constructor.
    + split; [|exact IHmore]. now apply occurs_newline_intro.
Qed.

(** X6: [getContainerId] removes the first newline of the listing and no
    other: a listing of one line gives that line, an empty listing gives
    [null], and the lines of a longer listing are glued together; the empty
    string is never returned. *)
Theorem getContainerId_first_newline_only (name : value) (w : World)
  (out : string) :
  runtime (spawns w) "docker" (psCommand name) = Returns out ->
  (forall first rest,
     out = first +++ newline +++ rest -> occurs newline first = false ->
     snd (getContainerId name w)
     = Ret (if first +++ rest =? EmptyString then VNull
            else VStr (first +++ rest)))
  /\ (occurs newline out = false ->
      snd (getContainerId name w)
      = Ret (if out =? EmptyString then VNull else VStr out))
  /\ snd (getContainerId name w) <> Ret (VStr EmptyString).
Proof.
  intros Hout. rewrite getContainerId_eq, Hout. cbn [snd].
  rewrite nonEmptyOrNull_string. repeat split.
  - intros first rest -> Hfree. now rewrite removeFirstNewline_app.
  - intros Hfree. now rewrite removeFirstNewline_none.
  - destruct (removeFirstNewline out =? EmptyString) eqn:E; [discriminate|].
    intros [= H]. rewrite H in E. discriminate E.
Qed.

(** X7: every line [_parseMsg] returns is non-empty and free of newlines. *)
Theorem parseMsg_lines_clean (msg l : string) :
  In l (_parseMsg msg) -> l <> EmptyString /\ occurs newline l = false.
Proof.
  unfold _parseMsg, compact, split_newline. intros Hin.
  apply filter_In in Hin as [Hin Hne].
  destruct (splitLines_pieces msg) as [Hfirst Hmore].
  destruct (splitLines msg) as [first more]; cbn in *. split.
  - intros ->. discriminate Hne.
  - destruct Hin as [<-|Hin]; [exact Hfirst|].
    rewrite Forall_forall in Hmore. now apply Hmore.
Qed.

(** X8: a chunk made of non-empty lines separated by newlines is parsed
    back into exactly those lines. *)
Theorem parseMsg_roundtrip (ls : list string) :
  forallb (fun l => negb (l =? EmptyString) && negb (occurs newline l)) ls = true ->
  _parseMsg (String.concat newline ls) = ls.
Proof.
  induction ls as [|x rest IH]; intros Hall; [reflexivity|].
  cbn [forallb] in Hall. apply andb_prop in Hall as [Hx Hrest].
  apply andb_prop in Hx as [Hne Hfree].
  apply negb_true_iff in Hne, Hfree. specialize (IH Hrest).
  destruct rest as [|y rest].
  - cbn [String.concat]. unfold _parseMsg, split_newline.
    rewrite (splitLines_none x Hfree). cbn. now rewrite Hne.
  - change (String.concat newline (x :: y :: rest))
      with (x +++ newline +++ String.concat newline (y :: rest)).
    unfold _parseMsg in *. rewrite split_newline_app by exact Hfree.
    cbn [compact filter]. rewrite Hne. cbn [negb].
    unfold compact in IH. now rewrite IH.
Qed.

Lemma forEach_logWith_logs (lg : Logger) (l : level) (g : string -> string)
  (xs : list string) (w : World) :
  logs (fst (forEach (fun line => logWith lg l (g line)) xs w))
  = logs w ++ match lg, l with
              | DummyLogger, Debug => []
              | _, _ => map (fun line => (loggerSink lg, l, g line)) xs
              end.
Proof.
  revert w. induction xs as [|x rest IH]; intros w.
  - cbn. destruct lg, l; now rewrite app_nil_r.
  - cbn [forEach]. unfold bind. rewrite logWith_eq, IH.
    destruct lg, l; cbn; rewrite <- ?app_assoc; reflexivity.
Qed.

(** X9: the stderr handler logs one error entry [[docker] line] per
    non-empty line of the chunk, in order; the stdout handler does the same
    at debug level with the caller's logger and logs nothing with the
    default one. *)
Theorem handlers_log_lines (opt : options) (msg : string) (w : World) :
  logs (fst (onStderr opt msg w))
  = logs w ++ map (fun line => (loggerSink (asyncLogger opt), Failure,
                                "[docker] " +++ line)) (_parseMsg msg)
  /\ logs (fst (onStdout opt msg w))
     = logs w ++ match asyncLogger opt with
                 | CustomLogger =>
                     map (fun line => (Custom, Debug, "[docker] " +++ line))
                       (_parseMsg msg)
                 | DummyLogger => []
                 end.
Proof.
  split.
  - unfold onStderr.
    rewrite (forEach_logWith_logs _ Failure (fun line => "[docker] " +++ line)).
    now destruct (asyncLogger opt).
  - unfold onStdout.
    rewrite (forEach_logWith_logs _ Debug (fun line => "[docker] " +++ line)).
    now destruct (asyncLogger opt).
Qed.

(** ** Further properties of removal, connection check and synchronous run *)

(** X10: the callback of [_removeContainer] runs after the removal attempt
    whether the attempt succeeded or failed, in a world with exactly one
    more spawned process, the remove command. *)
Theorem removeContainer_callback_always (containerId : value) (k : M unit)
  (opt : options) (w : World) :
  exists w1,
    _removeContainer containerId (Some k) opt w = k w1
    /\ spawns w1
       = spawns w ++ [RunProgram "docker"
                        (rmCommand (withDefault false (force opt)) containerId)]
    /\ completions w1 = completions w.
Proof.
  rewrite removeContainer_eq. eexists. split; [reflexivity|].
  destruct (runtime (spawns w) "docker" _);
    now rewrite spawns_logged, completions_logged.
Qed.

(** X11: a successful removal is reported at debug level only: the
    caller's logger receives [Temporary container successfully deleted],
    the default logger stays silent. *)
Theorem removeContainer_success_log (containerId : value) (opt : options)
  (w : World) (out : string) :
  runtime (spawns w) "docker"
    (rmCommand (withDefault false (force opt)) containerId) = Returns out ->
  _removeContainer containerId None opt w
  = (mkWorld
       (spawns w ++ [RunProgram "docker"
                       (rmCommand (withDefault false (force opt)) containerId)])
       (logs w ++ match withDefault DummyLogger (logger opt) with
                  | CustomLogger =>
                      [(Custom, Debug, "Temporary container successfully deleted")]
                  | DummyLogger => []
                  end)
       (completions w) (sigintListeners w),
     Ret tt).
Proof.
  intros Hout. rewrite removeContainer_eq, Hout.
  destruct (withDefault DummyLogger (logger opt)); cbn;
    rewrite ?app_nil_r; reflexivity.
Qed.

(** X12: [verifyConnection] runs [docker ps] and returns [true] when it
    answers; otherwise it throws an error whose message wraps the original
    one. It never returns [false]. *)
Theorem verifyConnection_true_or_wrapped (w : World) :
  verifyConnection w
  = (addSpawn (RunProgram "docker" "ps") w,
     match runtime (spawns w) "docker" "ps" with
     | Returns _ => Ret true
     | Fails e =>
         Throw (Error ("Docker is not available: " +++ newline +++ message e))
     end)
  /\ snd (verifyConnection w) <> Ret false.
Proof.
  assert (verifyConnection w
          = (addSpawn (RunProgram "docker" "ps") w,
             match runtime (spawns w) "docker" "ps" with
             | Returns _ => Ret true
             | Fails e =>
                 Throw (Error ("Docker is not available: " +++ newline
                                 +++ message e))
             end)) as Heq.
  { unfold verifyConnection, tryCatch, bind. rewrite exec_eq.
    now destruct (runtime (spawns w) "docker" "ps"). }
  split; [exact Heq|]. rewrite Heq. cbn [snd].
  destruct (runtime (spawns w) "docker" "ps"); discriminate.
Qed.

(** X13: once its arguments are built, [runInContainer] spawns the run
    command and nothing else - no lookup, no removal of the container - and
    returns the output of that command or throws its failure. *)
Theorem runInContainer_single_process (id : string) (cmd : command)
  (opt : options) (w : World) (args : list value) :
  _parseRunCommandArguments id cmd (withDefault [] (runOptions opt))
    (withDefault [] (mappings opt)) = Ok args ->
  runInContainer id cmd opt w
  = (addSpawn (RunProgram "docker" (join " " args)) w,
     match runtime (spawns w) "docker" (join " " args) with
     | Returns out => Ret out
     | Fails e => Throw e
     end).
Proof.
  intros Hargs. unfold runInContainer. rewrite Hargs. cbn [liftResult].
  unfold bind, ret. now rewrite exec_eq.
Qed.

(** ** Further properties of the asynchronous run *)

Create HintDb listeners.

Lemma keeps_ret {A : Type} (a : A) : keepsListeners (ret a).
Proof. now intros w. Qed.

Lemma keeps_throw {A : Type} (e : exn) : keepsListeners (@throw A e).
Proof. now intros w. Qed.

Lemma keeps_processExit : keepsListeners processExit.
Proof. now intros w. Qed.

Lemma keeps_bind {A B : Type} (m : M A) (k : A -> M B) :
  keepsListeners m -> (forall a, keepsListeners (k a)) -> keepsListeners (bind m k).
Proof.
  intros Hm Hk w. unfold bind. specialize (Hm w).
  destruct (m w) as [w1 [a| |]]; cbn in *; try exact Hm.
  now rewrite (Hk a w1).
Qed.

Lemma keeps_tryCatch {A : Type} (m : M A) (h : exn -> M A) :
  keepsListeners m -> (forall e, keepsListeners (h e)) ->
  keepsListeners (tryCatch m h).
Proof.
  intros Hm Hh w. unfold tryCatch. specialize (Hm w).
  destruct (m w) as [w1 [a|e|]]; cbn in *; try exact Hm.
  now rewrite (Hh e w1).
Qed.

Lemma keeps_exec (c : string) : keepsListeners (exec c).
Proof. intros w. now rewrite exec_eq. Qed.

Lemma keeps_logWith (lg : Logger) (l : level) (msg : string) :
  keepsListeners (logWith lg l msg).
Proof. intros w. now destruct lg, l. Qed.

Lemma keeps_invoke (cb : callback) (c r : value) : keepsListeners (invoke cb c r).
Proof. intros w. now destruct cb. Qed.

#[local] Hint Resolve keeps_ret keeps_throw keeps_processExit keeps_bind
  keeps_tryCatch keeps_exec keeps_logWith keeps_invoke : listeners.

Lemma keeps_forEach {A : Type} (f : A -> M unit) (xs : list A) :
  (forall x, keepsListeners (f x)) -> keepsListeners (forEach f xs).
Proof. intros Hf. induction xs; cbn; auto with listeners. Qed.

Lemma keeps_getContainerId (name : value) : keepsListeners (getContainerId name).
Proof. unfold getContainerId. auto with listeners. Qed.

Lemma keeps_removeContainer (containerId : value) (k : option (M unit))
  (opt : options) :
  (forall m, k = Some m -> keepsListeners m) ->
  keepsListeners (_removeContainer containerId k opt).
Proof.
  intros Hk. unfold _removeContainer.
  apply keeps_bind; [auto 6 with listeners|].
  intros _. destruct k; auto with listeners.
Qed.

Lemma keeps_onExit (cb : callback) (opt : options) (res : value) :
  keepsListeners (onExit cb opt res).
Proof.
  unfold onExit. apply keeps_bind; [apply keeps_getContainerId|].
  intros containerId. apply keeps_bind; [apply keeps_invoke|].
  intros _. apply keeps_removeContainer.
  intros m [= <-]. destruct (asyncExitOnEnd opt); auto with listeners.
Qed.

Lemma keeps_deliver (cb : callback) (opt : options) (evs : list event) :
  keepsListeners (deliver (onStdout opt) (onStderr opt) (onExit cb opt)
                    (sigintListener cb opt) evs).
Proof.
  unfold deliver. apply keeps_forEach. intros [msg|msg| |res]; cbn.
  - apply keeps_forEach. auto with listeners.
  - apply keeps_forEach. auto with listeners.
  - apply keeps_onExit.
  - apply keeps_onExit.
Qed.

(** X14: every call of [runInContainerAsync] leaves exactly one more
    SIGINT listener on the host than it found - also when it throws on an
    invalid mapping or on the deadline; no path removes the listener. *)
Theorem runInContainerAsync_adds_one_listener (id : string) (cmd : command)
  (cb : callback) (opt : options) (child : Child) (w : World) :
  sigintListeners (fst (runInContainerAsync id cmd cb opt child w))
  = S (sigintListeners w).
Proof.
  destruct (_parseRunCommandArguments id cmd (asyncRunOptions opt)
              (asyncMappings opt)) as [args|e] eqn:Hargs.
  - rewrite (runInContainerAsync_eq _ _ _ _ _ _ _ Hargs).
    match goal with
    | |- context [tryCatch ?m ?h ?w0] =>
        assert (keepsListeners (tryCatch m h)) as Hkeep
    end.
    { apply keeps_tryCatch.
      - apply keeps_bind; [apply keeps_deliver|].
        intros _. destruct (snd (child (asyncTimeout opt))); cbn;
          auto with listeners.
      - intros e. apply keeps_bind; [apply keeps_getContainerId|].
        intros c. apply keeps_bind; [|auto with listeners].
        apply keeps_removeContainer. discriminate. }
    now rewrite Hkeep.
  - now rewrite (runInContainerAsync_invalid _ _ _ _ _ _ _ Hargs).
Qed.

(** X15: the container is named after the caller's [name] option, or after
    the clock when the option is missing or [undefined]. A textual name is
    passed on the command line as [--name <name>] (the run options being an
    ordinary map), and the termination sequence starts with the lookup
    [ps -aq --filter "name=<name>"] for that very name. *)
Theorem container_name_used_throughout (cb : callback) (opt : options) :
  get "name" (asyncRunOptions opt)
  = match lookup "name" (withDefault [] (runOptions opt)) with
    | Some VUndefined | None => VStr strftime_s
    | Some v => v
    end
  /\ forall n,
       get "name" (asyncRunOptions opt) = VStr n ->
       (forall id cmd binds,
          isArrayLike (withDefault [] (runOptions opt)) = false ->
          _getBinds (asyncMappings opt) = Ok binds ->
          exists args pre post,
            _parseRunCommandArguments id cmd (asyncRunOptions opt)
              (asyncMappings opt) = Ok args
            /\ args = pre ++ [VStr "--name"; VStr n] ++ post)
       /\ (forall res w,
             exists more,
               spawns (fst (onExit cb opt res w))
               = spawns w
                 ++ RunProgram "docker"
                      ("ps -aq --filter " +++ dquote +++ "name=" +++ n +++ dquote)
                    :: more).
Proof.
  split.
  - unfold get, asyncRunOptions. rewrite lookup_opts.
    destruct (lookup "name" (withDefault [] (runOptions opt))) as [v|];
      [destruct v|]; reflexivity.
  - intros n Hname. split.
    + intros id cmd binds Hown Hbinds.
      pose proof (isArrayLike_opts _ [("name", VStr strftime_s)] Hown eq_refl)
        as Hown'.
      pose proof (isArrayLike_opts _ [("interactive", VNull)] Hown' eq_refl)
        as Hown''.
      assert (In ("name", VStr n)
                (opts (asyncRunOptions opt) [("interactive", VNull)])) as Hin.
      { apply lookup_In. rewrite lookup_opts. unfold get in Hname.
        destruct (lookup "name" (asyncRunOptions opt)) as [v|];
          [|discriminate Hname].
        now subst v. }
      destruct (parseRunOptions_at _ _ _ Hown'' Hin eq_refl)
        as (before & after & Hflags).
      rewrite parseRunCommandArguments_eq, Hbinds.
      unfold asyncRunOptions. rewrite Hflags.
      eexists _, ([VStr "run"] ++ binds ++ before), _.
      split; [reflexivity|].
      cbn [app]. rewrite <- !app_assoc. reflexivity.
    + intros res w. unfold onExit.
      match goal with
      | |- context [bind (getContainerId ?nm) ?k] =>
          assert (forall c, growsSpawns (k c)) as Hgrow
      end.
      { intros c. apply grows_bind; [apply grows_invoke|].
        intros _. apply grows_removeContainer.
        intros m [= <-]. destruct (asyncExitOnEnd opt); auto with effects. }
      unfold bind at 1. rewrite getContainerId_eq, Hname.
      change (psCommand (VStr n))
        with ("ps -aq --filter " +++ dquote +++ "name=" +++ n +++ dquote).
      destruct (runtime (spawns w) "docker" _) as [out|e].
      * destruct (Hgrow (nonEmptyOrNull (VStr (removeFirstNewline out)))
                    (addSpawn
                       (RunProgram "docker"
                          ("ps -aq --filter " +++ dquote +++ "name=" +++ n
                             +++ dquote)) w)) as [more Hmore].
        exists more. cbv beta iota. cbv beta in Hmore. rewrite Hmore.
        cbn [spawns addSpawn]. now rewrite <- app_assoc.
      * exists []. reflexivity.
Qed.

(** One run of the termination sequence, step by step. *)
Lemma onExit_eq (cb : callback) (opt : options) (res : value) (w : World)
  (out : string) :
  runtime (spawns w) "docker" (psCommand (get "name" (asyncRunOptions opt)))
  = Returns out ->
  let containerId := nonEmptyOrNull (VStr (removeFirstNewline out)) in
  exists w',
    onExit cb opt res w
    = (w', if asyncExitOnEnd opt then Exit else Ret tt)
    /\ spawns w'
       = spawns w ++ [RunProgram "docker"
                        (psCommand (get "name" (asyncRunOptions opt)));
                      RunProgram "docker" (rmCommand true containerId)]
    /\ completions w'
       = completions w ++ match cb with
                          | OnComplete => [(VObj [("id", containerId)], res)]
                          | NoCallback => []
                          end.
Proof.
  intros Hout containerId. unfold onExit. unfold bind at 1.
  rewrite getContainerId_eq, Hout. fold containerId.
  unfold bind. destruct cb; cbn [invoke ret];
    rewrite removeContainer_eq; cbn [withDefault force logger];
    destruct (asyncExitOnEnd opt); cbn [processExit ret];
    (eexists; split; [reflexivity|]);
    destruct (runtime _ "docker" (rmCommand true containerId));
    rewrite spawns_logged, completions_logged; cbn;
    rewrite <- ?app_assoc, ?app_nil_r; split; reflexivity.
Qed.

Lemma forEach_app {A : Type} (f : A -> M unit) (xs ys : list A) (w : World) :
  forEach f (xs ++ ys) w = (forEach f xs ;;; forEach f ys) w.
Proof.
  revert w. induction xs as [|x rest IH]; intros w; cbn.
  - unfold bind, ret. reflexivity.
  - unfold bind. destruct (f x w) as [w1 [[]| |]]; [|reflexivity|reflexivity].
    rewrite IH. reflexivity.
Qed.

Lemma forEach_app_eq {A : Type} (f : A -> M unit) (xs ys : list A) (w : World) :
  forEach f (xs ++ ys) w
  = match forEach f xs w with
    | (w1, Ret _) => forEach f ys w1
    | (w1, Throw e) => (w1, Throw e)
    | (w1, Exit) => (w1, Exit)
    end.
Proof. rewrite forEach_app. reflexivity. Qed.

Lemma forEach_cons_eq {A : Type} (f : A -> M unit) (x : A) (xs : list A)
  (w : World) :
  forEach f (x :: xs) w
  = match f x w with
    | (w1, Ret _) => forEach f xs w1
    | (w1, Throw e) => (w1, Throw e)
    | (w1, Exit) => (w1, Exit)
    end.
Proof. reflexivity. Qed.

(** X16: on a host that carries no SIGINT listener of an earlier call,
    when exactly one trigger fires among the events of the wait - whatever
    the child printed before and after it - and the host is to stay alive,
    the run is: the child, one lookup by name, one forced removal of the
    identifier found; the callback receives that same identifier with the
    exit result of the child, or [{exitCode: 127}] for an interrupt. *)
Theorem single_trigger_sequence (id : string) (cmd : command) (opt : options)
  (child : Child) (w : World) (args : list value)
  (before after : list event) (ev : event) (out : string) :
  sigintListeners w = 0 ->
  _parseRunCommandArguments id cmd (asyncRunOptions opt) (asyncMappings opt)
  = Ok args ->
  child (asyncTimeout opt) = (before ++ ev :: after, Returned) ->
  triggers before = [] ->
  isTrigger ev = true ->
  triggers after = [] ->
  asyncExitOnEnd opt = false ->
  runtime (spawns w ++ [ExecAsync ("docker " +++ join " " args)]) "docker"
    (psCommand (get "name" (asyncRunOptions opt))) = Returns out ->
  let name := get "name" (asyncRunOptions opt) in
  let containerId := nonEmptyOrNull (VStr (removeFirstNewline out)) in
  let res := match ev with
             | ProcessExit r => r
             | _ => VObj [("exitCode", VNum 127)]
             end in
  let run := runInContainerAsync id cmd OnComplete opt child w in
  snd run = Ret tt
  /\ spawns (fst run)
     = spawns w ++ [ExecAsync ("docker " +++ join " " args);
                    RunProgram "docker" (psCommand name);
                    RunProgram "docker" (rmCommand true containerId)]
  /\ completions (fst run)
     = completions w ++ [(VObj [("id", containerId)], res)].
Proof.
  intros _ Hargs Hchild Hbefore Hev Hafter Hstay Hout name containerId res run.
  subst run.
  rewrite (runInContainerAsync_eq _ _ _ _ _ _ _ Hargs).
  set (w0 := addSpawn (ExecAsync ("docker " +++ join " " args)) (addListener w)).
  destruct (deliver_quiet OnComplete opt before w0 Hbefore)
    as (w1 & Hd1 & Hs1 & Hc1).
  change (spawns w0) with (spawns w ++ [ExecAsync ("docker " +++ join " " args)])
    in Hs1.
  change (completions w0) with (completions w) in Hc1.
  rewrite <- Hs1 in Hout.
  destruct (onExit_eq OnComplete opt res w1 out Hout) as (w2 & Hexit & Hs2 & Hc2).
  rewrite Hstay in Hexit.
  destruct (deliver_quiet OnComplete opt after w2 Hafter)
    as (w3 & Hd3 & Hs3 & Hc3).
  match goal with
  | |- context [tryCatch ?m ?h w0] =>
      assert (tryCatch m h w0 = (w3, Ret tt)) as ->
  end.
  { unfold tryCatch. rewrite Hchild. cbn [fst snd].
    unfold bind at 1. unfold deliver in *.
    rewrite forEach_app_eq, Hd1, forEach_cons_eq.
    assert (dispatch (onStdout opt) (onStderr opt) (onExit OnComplete opt)
              (sigintListener OnComplete opt) ev w1 = (w2, Ret tt)) as ->.
    { destruct ev; try discriminate Hev; exact Hexit. }
    rewrite Hd3. reflexivity. }
  cbn [fst snd]. split; [reflexivity|].
  rewrite Hs3, Hc3, Hs2, Hc2, Hs1, Hc1. fold name containerId.
  rewrite <- app_assoc. now split.
Qed.

(** X17: on a host that carries no SIGINT listener of an earlier call and
    with a runtime that answers the lookups, [exitOnEnd] makes the first
    trigger end the host: the call does not return, and whatever the child
    or the host would have delivered after that trigger has no effect. *)
Theorem exitOnEnd_stops_delivery (id : string) (cmd : command) (cb : callback)
  (opt : options) (child : Child) (w : World) (args : list value)
  (before after : list event) (ev : event) :
  sigintListeners w = 0 ->
  lookupsSucceed ->
  _parseRunCommandArguments id cmd (asyncRunOptions opt) (asyncMappings opt)
  = Ok args ->
  asyncExitOnEnd opt = true ->
  fst (child (asyncTimeout opt)) = before ++ ev :: after ->
  triggers before = [] ->
  isTrigger ev = true ->
  snd (runInContainerAsync id cmd cb opt child w) = Exit
  /\ runInContainerAsync id cmd cb opt child w
     = runInContainerAsync id cmd cb opt (fun _ => (before ++ [ev], Returned)) w.
Proof.
  intros _ Hlook Hargs Hexit Hevs Hquiet Hev.
  rewrite !(runInContainerAsync_eq _ _ _ _ _ _ _ Hargs). cbn [fst snd].
  rewrite Hevs.
  set (w0 := addSpawn (ExecAsync ("docker " +++ join " " args)) (addListener w)).
  assert (forall rest,
            exists w2,
              deliver (onStdout opt) (onStderr opt) (onExit cb opt)
                (sigintListener cb opt) (before ++ ev :: rest) w0 = (w2, Exit)
              /\ deliver (onStdout opt) (onStderr opt) (onExit cb opt)
                   (sigintListener cb opt) (before ++ [ev]) w0 = (w2, Exit))
    as Hstop.
  { intros rest. unfold deliver. rewrite !forEach_app_eq.
    destruct (deliver_counts cb opt before w0 Hlook) as (w1 & Hd & _).
    unfold deliver in Hd. rewrite Hquiet in Hd. cbn [length] in Hd.
    rewrite andb_false_r in Hd. rewrite Hd. rewrite !forEach_cons_eq.
    assert (exists w2,
              dispatch (onStdout opt) (onStderr opt) (onExit cb opt)
                (sigintListener cb opt) ev w1 = (w2, Exit)) as (w2 & ->).
    { destruct ev as [m|m| |r]; try discriminate Hev; cbn [dispatch].
      - destruct (onExit_once cb opt (VObj [("exitCode", VNum 127)]) w1 Hlook)
          as (w2 & H2 & _).
        rewrite Hexit in H2. now exists w2.
      - destruct (onExit_once cb opt r w1 Hlook) as (w2 & H2 & _).
        rewrite Hexit in H2. now exists w2. }
    now exists w2. }
  destruct (Hstop after) as (w2 & Hfull & Hcut).
  unfold tryCatch, bind. rewrite Hfull, Hcut. now split.
Qed.

(** X18: when the lookup of the catch block itself fails, no removal is
    attempted and the caller receives the failure of the lookup instead of
    the timeout failure. *)
Theorem timeout_lookup_failure (id : string) (cmd : command) (cb : callback)
  (opt : options) (child : Child) (w w1 : World) (args : list value)
  (evs : list event) (e e' : exn) :
  _parseRunCommandArguments id cmd (asyncRunOptions opt) (asyncMappings opt)
  = Ok args ->
  child (asyncTimeout opt) = (evs, TimedOut e) ->
  deliver (onStdout opt) (onStderr opt) (onExit cb opt) (sigintListener cb opt)
    evs (addSpawn (ExecAsync ("docker " +++ join " " args)) (addListener w))
  = (w1, Ret tt) ->
  runtime (spawns w1) "docker" (psCommand (get "name" (asyncRunOptions opt)))
  = Fails e' ->
  runInContainerAsync id cmd cb opt child w
  = (addSpawn (RunProgram "docker"
                 (psCommand (get "name" (asyncRunOptions opt)))) w1,
     Throw e').
Proof.
  intros Hargs Hchild Hd Hfail.
  rewrite (runInContainerAsync_eq _ _ _ _ _ _ _ Hargs).
  unfold tryCatch. unfold bind at 1. rewrite Hchild. cbn [fst snd].
  rewrite Hd. cbn [wait throw]. unfold bind at 1.
  now rewrite getContainerId_eq, Hfail.
Qed.

(** ** loadImage *)

Lemma startsWith_gz_app (c : ascii) (a b : string) :
  startsWith ".gz" (String c a) = false ->
  startsWith ".gz" (String c (a +++ ".gz" +++ b)) = false.
Proof.
  cbn -[Ascii.eqb]. destruct (Ascii.eqb "." c); [|reflexivity].
  destruct a as [|c1 a]; [reflexivity|]. cbn -[Ascii.eqb].
  destruct (Ascii.eqb "g" c1); [|reflexivity].
  destruct a as [|c2 a]; [reflexivity|]. cbn -[Ascii.eqb].
  destruct (Ascii.eqb "z" c2); [|reflexivity]. discriminate.
Qed.

(** Only the first [.gz] of a path is removed. *)
Lemma replaceFirst_gz (a b : string) :
  occurs ".gz" a = false ->
  replaceFirst ".gz" EmptyString (a +++ ".gz" +++ b) = a +++ b.
Proof.
  induction a as [|c a IH]; intros Hfree; [reflexivity|].
  change (occurs ".gz" (String c a))
    with (if startsWith ".gz" (String c a) then true else occurs ".gz" a)
    in Hfree.
  destruct (startsWith ".gz" (String c a)) eqn:Hstart; [discriminate|].
  change (String c a +++ ".gz" +++ b) with (String c (a +++ ".gz" +++ b)).
  change (replaceFirst ".gz" EmptyString (String c (a +++ ".gz" +++ b)))
    with (if startsWith ".gz" (String c (a +++ ".gz" +++ b))
          then EmptyString
               +++ dropChars (String.length ".gz") (String c (a +++ ".gz" +++ b))
          else String c (replaceFirst ".gz" EmptyString (a +++ ".gz" +++ b))).
  rewrite (startsWith_gz_app c a b Hstart), (IH Hfree). reflexivity.
Qed.

(** X19: for a path that does not exist [loadImage] throws
    [Cannot load <path> as docker image: file does not exist.] and does
    nothing else: no gunzip, no docker command. *)
Theorem loadImage_missing_file (imagePath : string) (w : World) :
  fileExists imagePath = false ->
  loadImage imagePath w
  = (w, Throw (Error ("Cannot load " +++ imagePath
                        +++ " as docker image: file does not exist."))).
Proof. intros Hno. unfold loadImage. now rewrite Hno. Qed.

(** X20: for an existing path with extension [.gz], [loadImage] runs
    gunzip on the path and then loads the path with its first [.gz]
    removed, wherever in the path that first occurrence is. *)
Theorem loadImage_gz_first_occurrence (a b : string) (w : World) :
  fileExists (a +++ ".gz" +++ b) = true ->
  path_extname (a +++ ".gz" +++ b) = ".gz" ->
  occurs ".gz" a = false ->
  loadImage (a +++ ".gz" +++ b) w
  = (logExec "gunzip" (a +++ ".gz" +++ b) ;;; exec ("load -i " +++ a +++ b)) w.
Proof.
  intros Hyes Hext Hfree. unfold loadImage.
  rewrite Hyes, Hext, (replaceFirst_gz a b Hfree). reflexivity.
Qed.

(** ** shell *)

Lemma lookup_setProp_same (k : string) (v : value) (o : obj) :
  lookup k (setProp k v o) = Some v.
Proof.
  induction o as [|[k' v'] rest IH]; cbn.
  - now rewrite String.eqb_refl.
  - destruct (k' =? k) eqn:E; cbn; [now rewrite String.eqb_refl|].
    now rewrite E.
Qed.

Lemma lookup_setProp_other (k k' : string) (v : value) (o : obj) :
  k <> k' -> lookup k' (setProp k v o) = lookup k' o.
Proof.
  intros Hne. induction o as [|[k0 v0] rest IH]; cbn.
  - destruct (k =? k') eqn:E; [|reflexivity].
    apply String.eqb_eq in E. contradiction.
  - destruct (k0 =? k) eqn:E; cbn.
    + apply String.eqb_eq in E; subst k0.
      destruct (k =? k') eqn:E'; [|reflexivity].
      apply String.eqb_eq in E'. contradiction.
    + now rewrite IH.
Qed.

Lemma In_setProp (k k' : string) (v v' : value) (o : obj) :
  In (k', v') (setProp k v o) -> (k' = k /\ v' = v) \/ In (k', v') o.
Proof.
  induction o as [|[k0 v0] rest IH]; cbn.
  - intros [[= <- <-]|[]]. now left.
  - destruct (k0 =? k); cbn.
    + intros [[= <- <-]|Hin]; [now left|right; now right].
    + intros [Heq|Hin]; [right; now left|].
      destruct (IH Hin) as [?|?]; [now left|right; now right].
Qed.

Lemma rootMappings_valid (root_ : value) (ms : obj) :
  (forall h v, In (h, v) ms -> isString v || isReallyObject v = true) ->
  forall h v, In (h, v) (rootMappings root_ ms) ->
              isString v || isReallyObject v = true.
Proof.
  unfold rootMappings. destruct (truthy root_); [|auto].
  generalize (glob (toString root_ +++ "/*")) as files.
  intros files. revert ms. induction files as [|f files IH]; intros ms Hvalid;
    cbn [fold_left]; [exact Hvalid|].
  apply IH. intros h v Hin.
  apply In_setProp in Hin as [[_ ->]|Hin]; [reflexivity|now apply (Hvalid h)].
Qed.

Lemma rootMappings_lookup (root_ : value) (ms : obj) (f : string) :
  truthy root_ = true ->
  In f (glob (toString root_ +++ "/*")) ->
  lookup f (rootMappings root_ ms)
  = Some (VStr (path_join "/" (path_basename f))).
Proof.
  intros Hroot. unfold rootMappings. rewrite Hroot.
  generalize (glob (toString root_ +++ "/*")) as files. intros files Hin.
  assert (forall m,
            In f files
            \/ lookup f m = Some (VStr (path_join "/" (path_basename f))) ->
            lookup f
              (fold_left
                 (fun m0 f0 =>
                    setProp f0 (VStr (path_join "/" (path_basename f0))) m0)
                 files m)
            = Some (VStr (path_join "/" (path_basename f)))) as Hfold.
  { clear Hin. induction files as [|x rest IH]; intros m Hcase; cbn [fold_left].
    - destruct Hcase as [[]|H]. exact H.
    - apply IH. destruct (string_dec x f) as [->|Hne].
      + right. apply lookup_setProp_same.
      + destruct Hcase as [[Hx|Hrest]|Hm]; [contradiction|now left|].
        right. now rewrite lookup_setProp_other. }
  apply Hfold. now left.
Qed.

Lemma shell_eq (imageId : string) (opt : shellOptions) (binds : list value) :
  _getBinds (rootMappings (root opt) (withDefault [] (shellMappings opt)))
  = Ok binds ->
  shell imageId opt
  = spawnSync "docker"
      ([VStr "run"] ++ _parseRunOptions (shellRunOptions' opt) ++ binds
       ++ [VStr imageId; VStr "bash"]).
Proof.
  intros Hbinds.
  assert (([VStr "run"] ++ _parseRunOptions (shellRunOptions' opt) ++ binds)
          ++ [VStr imageId; VStr "bash"]
          = [VStr "run"] ++ _parseRunOptions (shellRunOptions' opt) ++ binds
            ++ [VStr imageId; VStr "bash"]) as <-
    by now rewrite <- !app_assoc.
  unfold shell. rewrite Hbinds. reflexivity.
Qed.

(** X21: [shell] hands [docker] the arguments [run], the run options, the
    bind flags, the image and [bash], in this order (run options before
    binds); when the run options are an ordinary map (not array-like),
    [--interactive] and [--tty] are among them unless the caller set the
    option to [false]. *)
Theorem shell_default_flags (imageId : string) (opt : shellOptions)
  (binds : list value) :
  _getBinds (rootMappings (root opt) (withDefault [] (shellMappings opt)))
  = Ok binds ->
  isArrayLike (withDefault [] (shellRunOptions opt)) = false ->
  lookup "interactive" (withDefault [] (shellRunOptions opt))
  <> Some (VBool false) ->
  lookup "tty" (withDefault [] (shellRunOptions opt)) <> Some (VBool false) ->
  exists flags,
    shell imageId opt
    = spawnSync "docker"
        ([VStr "run"] ++ flags ++ binds ++ [VStr imageId; VStr "bash"])
    /\ flags = _parseRunOptions (shellRunOptions' opt)
    /\ In (VStr "--interactive") flags
    /\ In (VStr "--tty") flags.
Proof.
  intros Hbinds Hown Hi Ht. eexists. split; [exact (shell_eq _ _ _ Hbinds)|].
  split; [reflexivity|].
  assert (visits (shellRunOptions' opt) = shellRunOptions' opt) as Hvisits.
  { apply visits_own. unfold shellRunOptions'.
    now apply isArrayLike_opts. }
  split.
  - assert (exists v, lookup "interactive" (shellRunOptions' opt) = Some v
                      /\ strictEqBool v false = false) as (v & Hv & Hb).
    { unfold shellRunOptions'. rewrite lookup_opts.
      destruct (lookup "interactive" (withDefault [] (shellRunOptions opt)))
        as [v|].
      - destruct v as [| |[|]| | |]; try (eexists; split; reflexivity).
        congruence.
      - eexists; split; reflexivity. }
    apply lookup_In in Hv. rewrite <- Hvisits in Hv.
    exact (parseRunOptions_flag _ _ _ Hv Hb).
  - assert (exists v, lookup "tty" (shellRunOptions' opt) = Some v
                      /\ strictEqBool v false = false) as (v & Hv & Hb).
    { unfold shellRunOptions'. rewrite lookup_opts.
      destruct (lookup "tty" (withDefault [] (shellRunOptions opt))) as [v|].
      - destruct v as [| |[|]| | |]; try (eexists; split; reflexivity).
        congruence.
      - eexists; split; reflexivity. }
    apply lookup_In in Hv. rewrite <- Hvisits in Hv.
    exact (parseRunOptions_flag _ _ _ Hv Hb).
Qed.

(** X22: with a root directory, every entry the glob finds in it is bound,
    under its own name, to the directory of the same base name at the top
    of the container - whatever the caller's mappings said for that entry. *)
Theorem shell_root_binds (imageId : string) (opt : shellOptions) (f : string) :
  truthy (root opt) = true ->
  (forall h v, In (h, v) (withDefault [] (shellMappings opt)) ->
               isString v || isReallyObject v = true) ->
  In f (glob (toString (root opt) +++ "/*")) ->
  exists args pre post,
    shell imageId opt = spawnSync "docker" args
    /\ args = pre ++ [VStr "-v";
                      VStr (f +++ ":" +++ path_join "/" (path_basename f))]
                  ++ post.
Proof.
  intros Hroot Hvalid Hin.
  pose proof (rootMappings_valid (root opt) _ Hvalid) as Hvalid'.
  pose proof (lookup_In _ _ _
                (rootMappings_lookup (root opt)
                   (withDefault [] (shellMappings opt)) f Hroot Hin))
    as Hentry.
  rewrite (shell_eq imageId opt _ (each_bindEntry_valid _ [] Hvalid')).
  apply in_split in Hentry as (l1 & l2 & Hsplit).
  set (flagsOf := fun p : string * value =>
                    [VStr "-v"; VStr (bindSpec (snd p) (fst p))]).
  exists ([VStr "run"] ++ _parseRunOptions (shellRunOptions' opt)
          ++ ([] ++ flat_map flagsOf
                      (rootMappings (root opt)
                         (withDefault [] (shellMappings opt))))
          ++ [VStr imageId; VStr "bash"]),
         ([VStr "run"] ++ _parseRunOptions (shellRunOptions' opt)
          ++ flat_map flagsOf l1),
         (flat_map flagsOf l2 ++ [VStr imageId; VStr "bash"]).
  split; [reflexivity|].
  rewrite Hsplit, flat_map_app. cbn [flat_map fst snd app].
  unfold flagsOf at 2. cbn [fst snd bindSpec isReallyObject toString truthy].
  rewrite <- !app_assoc. reflexivity.
Qed.

(** X23: when the mappings, once the root entries are in place, are an
    ordinary map (not array-like), a value among them that is neither a
    string nor an object makes [shell] throw before [docker] is spawned. *)
Theorem shell_invalid_mapping (imageId : string) (opt : shellOptions)
  (w : World) :
  isArrayLike (rootMappings (root opt) (withDefault [] (shellMappings opt)))
  = false ->
  (exists h v,
     In (h, v) (rootMappings (root opt) (withDefault [] (shellMappings opt)))
     /\ isString v || isReallyObject v = false) ->
  exists v,
    isString v || isReallyObject v = false
    /\ shell imageId opt w = (w, Throw (invalidMappingSpec v)).
Proof.
  intros Hown Hbad. rewrite <- (visits_own _ Hown) in Hbad.
  destruct (getBinds_invalid _ Hbad) as (v & Hv & Herr).
  exists v. split; [exact Hv|]. unfold shell. now rewrite Herr.
Qed.

End Library.

(** ** The theorems at concrete inputs *)

(** A runtime that refuses every command: the failure ends in the log. *)
Lemma removeContainer_failure_witness :
  brokenRuntime (spawns emptyWorld) "docker" (rmCommand false (VStr "abc"))
  = Fails (Error "daemon down")
  /\ snd (_removeContainer brokenRuntime (VStr "abc") None noOptions emptyWorld)
     <> Throw (Error "daemon down")
  /\ exists w1,
       logs w1 = [(Console, Failure,
                   "Failed to delete container Error: daemon down")]
       /\ _removeContainer brokenRuntime (VStr "abc") None noOptions emptyWorld
          = (w1, Ret tt).
Proof.
  destruct (removeContainer_failure_caught_and_logged brokenRuntime (VStr "abc")
              None noOptions emptyWorld) as [Hno Hlog].
  - intros m H. discriminate H.
  - split; [reflexivity|]. split; [apply Hno|].
    apply (Hlog (Error "daemon down")). reflexivity.
Defined.

(** C4 as stated fails: with a [null] identifier a remove command is still
    handed to the runtime. *)
Lemma removeContainer_null_not_noop :
  spawns (fst (_removeContainer quietRuntime VNull None noOptions emptyWorld))
  = [RunProgram "docker" "rm  null"]
  /\ spawns (fst (_removeContainer quietRuntime VNull None noOptions emptyWorld))
     <> spawns emptyWorld.
Proof. split; [reflexivity|discriminate]. Qed.

(** A runtime that lists one image id. *)
Lemma imageExists_witness :
  quietRuntime (spawns emptyWorld) "docker" (imagesCommand "centos")
  = Returns "0123abcd"
  /\ snd (getImageId quietRuntime "centos" emptyWorld) = Ret (VStr "0123abcd")
  /\ snd (imageExists quietRuntime "centos" emptyWorld) = Ret true.
Proof.
  destruct (imageExists_iff_imageId quietRuntime "centos" emptyWorld)
    as [Hex Hid].
  destruct (Hid "0123abcd" eq_refl) as [Hret _].
  split; [reflexivity|]. split; [exact Hret|].
  rewrite Hex. cbn [snd]. rewrite Hret. reflexivity.
Defined.

(** One string mapping and one mapping with a mode. *)
Lemma getBinds_flags_witness :
  (forall h v, In (h, v) sampleMappings -> isString v || isReallyObject v = true)
  /\ exists args,
       _getBinds plainStringify sampleMappings = Ok args
       /\ (exists pre post,
             args = pre ++ [VStr "-v"; VStr "/tmp/a:/b"] ++ post)
       /\ (exists pre post,
             args = pre ++ [VStr "-v"; VStr "/tmp/test:/container/tmp/test:rw"]
                        ++ post).
Proof.
  assert (forall h v, In (h, v) sampleMappings ->
                      isString v || isReallyObject v = true) as Hvalid.
  { intros h v [[= <- <-]|[[= <- <-]|[]]]; reflexivity. }
  split; [exact Hvalid|].
  destruct (getBinds_flags plainStringify sampleMappings Hvalid)
    as (args & Hok & Hall).
  exists args. split; [exact Hok|]. split.
  - apply (proj1 (Hall "/tmp/a" (VStr "/b") (or_introl eq_refl)) "/b" eq_refl).
  - apply (proj2 (Hall "/tmp/test" _ (or_intror (or_introl eq_refl)))
             _ eq_refl eq_refl).
Defined.

(** The mapping value [42]. *)
Lemma invalid_mapping_witness :
  mappings badOptions = Some [("/tmp/a", VNum 42)]
  /\ isArrayLike [("/tmp/a", VNum 42)] = false
  /\ isString (VNum 42) || isReallyObject (VNum 42) = false
  /\ exists v,
       isString v || isReallyObject v = false
       /\ _getBinds plainStringify [("/tmp/a", VNum 42)]
          = Err (invalidMappingSpec plainStringify v)
       /\ runInContainer quietRuntime plainStringify "centos" (CmdString "true")
            badOptions emptyWorld
          = (emptyWorld, Throw (invalidMappingSpec plainStringify v))
       /\ runInContainerAsync quietRuntime plainStringify "1700000000" "centos"
            (CmdString "true") OnComplete badOptions exitsNormally emptyWorld
          = (addListener emptyWorld, Throw (invalidMappingSpec plainStringify v))
       /\ spawns (addListener emptyWorld) = spawns emptyWorld.
Proof.
  split; [reflexivity|]. split; [reflexivity|]. split; [reflexivity|].
  apply (invalid_mapping_fails_before_spawn quietRuntime plainStringify
           "1700000000" "centos" (CmdString "true") OnComplete badOptions
           exitsNormally emptyWorld [("/tmp/a", VNum 42)]).
  - reflexivity.
  - reflexivity.
  - exists "/tmp/a", (VNum 42). split; [now left|reflexivity].
Defined.

(** C5 as stated fails: the command line built for the scenario is not the
    one without further flags. *)
Lemma runInContainer_has_extra_flag :
  spawns (fst (runInContainer quietRuntime plainStringify "centos"
                 (CmdString "true") sampleOptions emptyWorld))
  <> [RunProgram "docker" "run -v /tmp/a:/b centos true"]
  /\ spawns (fst (runInContainer quietRuntime plainStringify "centos"
                    (CmdString "true") sampleOptions emptyWorld))
     <> [RunProgram "docker" "run -v /tmp/a:/b true"].
Proof. split; discriminate. Qed.

(** No run options at all: the default applies. *)
Lemma interactive_by_default_witness :
  _getBinds plainStringify (withDefault [] (mappings sampleOptions))
  = Ok [VStr "-v"; VStr "/tmp/a:/b"]
  /\ isArrayLike (withDefault [] (runOptions sampleOptions)) = false
  /\ lookup "interactive" (withDefault [] (runOptions sampleOptions))
     <> Some (VBool false)
  /\ (exists pre post,
        _parseRunCommandArguments plainStringify "centos" (CmdString "true")
          (withDefault [] (runOptions sampleOptions))
          (withDefault [] (mappings sampleOptions))
        = Ok (pre ++ [VStr "--interactive"] ++ post)
        /\ spawns (fst (runInContainer quietRuntime plainStringify "centos"
                          (CmdString "true") sampleOptions emptyWorld))
           = spawns emptyWorld
             ++ [RunProgram "docker"
                   (join " " pre +++ " --interactive " +++ join " " post)])
  /\ (exists pre post more,
        _parseRunCommandArguments plainStringify "centos" (CmdString "true")
          (asyncRunOptions "1700000000" sampleOptions)
          (asyncMappings sampleOptions)
        = Ok (pre ++ [VStr "--interactive"] ++ post)
        /\ spawns (fst (runInContainerAsync quietRuntime plainStringify
                          "1700000000" "centos" (CmdString "true") OnComplete
                          sampleOptions exitsNormally emptyWorld))
           = spawns emptyWorld
             ++ ExecAsync ("docker " +++ join " " pre +++ " --interactive "
                             +++ join " " post) :: more).
Proof.
  split; [reflexivity|]. split; [reflexivity|]. split; [discriminate|].
  apply (interactive_by_default quietRuntime plainStringify "1700000000"
           "centos" (CmdString "true") OnComplete sampleOptions exitsNormally
           emptyWorld [VStr "-v"; VStr "/tmp/a:/b"]).
  - reflexivity.
  - reflexivity.
  - discriminate.
Defined.

Lemma quietRuntime_lookups : lookupsSucceed quietRuntime.
Proof. intros history name. now exists "0123abcd". Qed.

(** C1 as stated fails: an interrupt followed by the exit of the child runs
    the termination sequence twice and invokes the callback twice. *)
Lemma onComplete_invoked_twice :
  length (completions
            (fst (runInContainerAsync quietRuntime plainStringify "1700000000"
                    "centos" (CmdString "true") OnComplete sampleOptions
                    interruptedThenExited emptyWorld))) = 2
  /\ ~ length (completions
                 (fst (runInContainerAsync quietRuntime plainStringify
                         "1700000000" "centos" (CmdString "true") OnComplete
                         sampleOptions interruptedThenExited emptyWorld))) <= 1.
Proof. split; [reflexivity|]. cbn. lia. Qed.

(** A child that prints a line and exits: one trigger, one invocation. *)
Lemma onComplete_once_witness :
  lookupsSucceed quietRuntime
  /\ length (completions
               (fst (runInContainerAsync quietRuntime plainStringify
                       "1700000000" "centos" (CmdString "true") OnComplete
                       sampleOptions exitsNormally emptyWorld))) = 1
  /\ snd (runInContainerAsync quietRuntime plainStringify "1700000000" "centos"
            (CmdString "true") OnComplete sampleOptions exitsNormally emptyWorld)
     = Ret tt.
Proof.
  split; [exact quietRuntime_lookups|].
  exact (onComplete_once_per_trigger quietRuntime plainStringify "1700000000"
           "centos" (CmdString "true") OnComplete sampleOptions exitsNormally
           emptyWorld _ eq_refl quietRuntime_lookups eq_refl).
Defined.

(** A child that outlives the deadline, with a runtime that answers. *)
Lemma timeout_witness :
  hangs (asyncTimeout sampleOptions)
  = ([Stdout "hello"], TimedOut (Error "Exceeded timeout"))
  /\ triggers [Stdout "hello"] = []
  /\ completions (fst (runInContainerAsync quietRuntime plainStringify
                         "1700000000" "centos" (CmdString "true") OnComplete
                         sampleOptions hangs emptyWorld)) = []
  /\ snd (runInContainerAsync quietRuntime plainStringify "1700000000" "centos"
            (CmdString "true") OnComplete sampleOptions hangs emptyWorld)
     = Throw (Error "Exceeded timeout")
  /\ spawns (fst (runInContainerAsync quietRuntime plainStringify "1700000000"
                    "centos" (CmdString "true") OnComplete sampleOptions hangs
                    emptyWorld))
     = [ExecAsync "docker run -v /tmp/a:/b --name 1700000000 --interactive centos true";
        RunProgram "docker" (psCommand (VStr "1700000000"));
        RunProgram "docker" "rm -f 0123abcd"].
Proof.
  split; [reflexivity|]. split; [reflexivity|].
  destruct (timeout_removes_then_rethrows quietRuntime plainStringify
              "1700000000" "centos" (CmdString "true") OnComplete sampleOptions
              hangs emptyWorld _ _ _ eq_refl eq_refl eq_refl)
    as (Hc & _ & _ & Hrun).
  split; [exact Hc|]. exact Hrun.
Defined.

(** C2 as stated fails: when the runtime refuses the lookup of the catch
    block, the caller receives that refusal, not the timeout failure, and
    no removal is attempted. *)
Lemma timeout_failure_replaced :
  snd (runInContainerAsync brokenRuntime plainStringify "1700000000" "centos"
         (CmdString "true") OnComplete sampleOptions hangs emptyWorld)
  = Throw (Error "daemon down")
  /\ snd (runInContainerAsync brokenRuntime plainStringify "1700000000" "centos"
            (CmdString "true") OnComplete sampleOptions hangs emptyWorld)
     <> Throw (Error "Exceeded timeout")
  /\ spawns (fst (runInContainerAsync brokenRuntime plainStringify "1700000000"
                    "centos" (CmdString "true") OnComplete sampleOptions hangs
                    emptyWorld))
     = [ExecAsync "docker run -v /tmp/a:/b --name 1700000000 --interactive centos true";
        RunProgram "docker" (psCommand (VStr "1700000000"))].
Proof. split; [reflexivity|]. split; [discriminate|reflexivity]. Qed.

(** ** The further properties at concrete inputs *)

(** Two ordinary option maps. *)
Lemma parseRunOptions_app_witness :
  isArrayLike [("name", VStr "x")] = false
  /\ isArrayLike [("privileged", VBool true)] = false
  /\ _parseRunOptions ([("name", VStr "x")] ++ [("privileged", VBool true)])
     = _parseRunOptions [("name", VStr "x")]
       ++ _parseRunOptions [("privileged", VBool true)].
Proof.
  split; [reflexivity|]. split; [reflexivity|].
  exact (parseRunOptions_app [("name", VStr "x")] [("privileged", VBool true)]
           eq_refl eq_refl).
Defined.


(** A valid mapping, then [42], then [true]: the error names [42]. *)
Lemma getBinds_first_invalid_witness :
  _getBinds plainStringify
    [("/a", VStr "/b"); ("/c", VNum 42); ("/d", VBool true)]
  = Err (Error "Invalid mapping spec 42").
Proof.
  apply (getBinds_first_invalid plainStringify [("/a", VStr "/b")]
           [("/d", VBool true)] "/c" (VNum 42)).
  - reflexivity.
  - intros h' v' [[= <- <-]|[]]. reflexivity.
  - reflexivity.
Defined.

(** The mapping of the documentation, with [mod] for [mode]. *)
Lemma getBinds_without_mode_witness :
  exists args pre post,
    _getBinds plainStringify
      [("/tmp/read", VObj [("path", VStr "/tmp/read"); ("mod", VStr "ro")])]
    = Ok args
    /\ args = pre ++ [VStr "-v"; VStr "/tmp/read:/tmp/read"] ++ post.
Proof.
  apply (getBinds_object_without_mode plainStringify
           [("/tmp/read", VObj [("path", VStr "/tmp/read"); ("mod", VStr "ro")])]
           "/tmp/read" [("path", VStr "/tmp/read"); ("mod", VStr "ro")]).
  - intros h v [[= <- <-]|[]]. reflexivity.
  - now left.
  - reflexivity.
Defined.

Lemma getBinds_two_per_entry_witness :
  _getBinds plainStringify sampleMappings
  = Ok [VStr "-v"; VStr "/tmp/a:/b";
        VStr "-v"; VStr "/tmp/test:/container/tmp/test:rw"]
  /\ (forall h v, In (h, v) sampleMappings ->
                  isString v || isReallyObject v = true)
  /\ length [VStr "-v"; VStr "/tmp/a:/b";
             VStr "-v"; VStr "/tmp/test:/container/tmp/test:rw"]
     = 2 * length sampleMappings.
Proof.
  split; [reflexivity|].
  apply (getBinds_two_per_entry plainStringify sampleMappings);
    reflexivity.
Defined.

(** A listing of one line ending in a newline. *)
Lemma getContainerId_witness :
  listingRuntime (spawns emptyWorld) "docker" (psCommand (VStr "c"))
  = Returns ("0123abcd" +++ newline)
  /\ snd (getContainerId listingRuntime (VStr "c") emptyWorld)
     = Ret (VStr "0123abcd").
Proof.
  split; [reflexivity|].
  destruct (getContainerId_first_newline_only listingRuntime (VStr "c")
              emptyWorld ("0123abcd" +++ newline) eq_refl) as (Hline & _ & _).
  exact (Hline "0123abcd" EmptyString eq_refl eq_refl).
Defined.

(** A chunk with a blank line in the middle. *)
Lemma parseMsg_lines_witness :
  In "b" (_parseMsg ("a" +++ newline +++ newline +++ "b" +++ newline))
  /\ "b" <> EmptyString /\ occurs newline "b" = false.
Proof.
  assert (In "b" (_parseMsg ("a" +++ newline +++ newline +++ "b" +++ newline)))
    as Hin by (right; now left).
  split; [exact Hin|].
  exact (parseMsg_lines_clean _ "b" Hin).
Defined.

Lemma parseMsg_roundtrip_witness :
  _parseMsg (String.concat newline ["Step 1/2"; "Step 2/2"])
  = ["Step 1/2"; "Step 2/2"].
Proof. apply (parseMsg_roundtrip ["Step 1/2"; "Step 2/2"]). reflexivity. Defined.

(** A forced removal that succeeds, with the caller's logger. *)
Lemma removeContainer_success_witness :
  quietRuntime (spawns emptyWorld) "docker" (rmCommand true (VStr "abc"))
  = Returns "0123abcd"
  /\ _removeContainer quietRuntime (VStr "abc") None loggingOptions emptyWorld
     = (mkWorld [RunProgram "docker" "rm -f abc"]
          [(Custom, Debug, "Temporary container successfully deleted")] [] 0,
        Ret tt).
Proof.
  split; [reflexivity|].
  exact (removeContainer_success_log quietRuntime (VStr "abc") loggingOptions
           emptyWorld "0123abcd" eq_refl).
Defined.

Lemma runInContainer_single_process_witness :
  runInContainer quietRuntime plainStringify "centos" (CmdString "true")
    sampleOptions emptyWorld
  = (addSpawn (RunProgram "docker" "run -v /tmp/a:/b --interactive centos true")
       emptyWorld,
     Ret "0123abcd").
Proof.
  exact (runInContainer_single_process quietRuntime plainStringify "centos"
           (CmdString "true") sampleOptions emptyWorld _ eq_refl).
Defined.

(** No name given: the clock names the container. *)
Lemma container_name_witness :
  get "name" (asyncRunOptions "1700000000" sampleOptions) = VStr "1700000000"
  /\ (exists args pre post,
        _parseRunCommandArguments plainStringify "centos" (CmdString "true")
          (asyncRunOptions "1700000000" sampleOptions)
          (asyncMappings sampleOptions) = Ok args
        /\ args = pre ++ [VStr "--name"; VStr "1700000000"] ++ post)
  /\ exists more,
       spawns (fst (onExit quietRuntime "1700000000" OnComplete sampleOptions
                      exitedOk emptyWorld))
       = spawns emptyWorld
         ++ RunProgram "docker"
              ("ps -aq --filter " +++ dquote +++ "name=" +++ "1700000000"
                 +++ dquote) :: more.
Proof.
  split; [reflexivity|].
  destruct (proj2 (container_name_used_throughout quietRuntime plainStringify
                     "1700000000" OnComplete sampleOptions)
              "1700000000" eq_refl) as [Hflag Hlookup].
  split.
  - exact (Hflag "centos" (CmdString "true") _ eq_refl eq_refl).
  - exact (Hlookup exitedOk emptyWorld).
Defined.

(** A child that prints a line and then exits. *)
Lemma single_trigger_witness :
  snd (runInContainerAsync quietRuntime plainStringify "1700000000" "centos"
         (CmdString "true") OnComplete sampleOptions exitsNormally emptyWorld)
  = Ret tt
  /\ spawns (fst (runInContainerAsync quietRuntime plainStringify "1700000000"
                    "centos" (CmdString "true") OnComplete sampleOptions
                    exitsNormally emptyWorld))
     = [ExecAsync "docker run -v /tmp/a:/b --name 1700000000 --interactive centos true";
        RunProgram "docker" (psCommand (VStr "1700000000"));
        RunProgram "docker" "rm -f 0123abcd"]
  /\ completions (fst (runInContainerAsync quietRuntime plainStringify
                         "1700000000" "centos" (CmdString "true") OnComplete
                         sampleOptions exitsNormally emptyWorld))
     = [(VObj [("id", VStr "0123abcd")], exitedOk)].
Proof.
  exact (single_trigger_sequence quietRuntime plainStringify "1700000000"
           "centos" (CmdString "true") sampleOptions exitsNormally emptyWorld
           _ [Stdout "hello"] [] (ProcessExit exitedOk) _
           eq_refl eq_refl eq_refl eq_refl eq_refl eq_refl eq_refl eq_refl).
Defined.

(** An interrupt, then the exit of the child, with [exitOnEnd]. *)
Lemma exitOnEnd_witness :
  lookupsSucceed quietRuntime
  /\ snd (runInContainerAsync quietRuntime plainStringify "1700000000" "centos"
            (CmdString "true") OnComplete exitingOptions interruptedThenExited
            emptyWorld) = Exit
  /\ runInContainerAsync quietRuntime plainStringify "1700000000" "centos"
       (CmdString "true") OnComplete exitingOptions interruptedThenExited
       emptyWorld
     = runInContainerAsync quietRuntime plainStringify "1700000000" "centos"
         (CmdString "true") OnComplete exitingOptions
         (fun _ => ([Sigint], Returned)) emptyWorld.
Proof.
  split; [exact quietRuntime_lookups|].
  exact (exitOnEnd_stops_delivery quietRuntime plainStringify "1700000000"
           "centos" (CmdString "true") OnComplete exitingOptions
           interruptedThenExited emptyWorld _ [] [ProcessExit exitedOk] Sigint
           eq_refl quietRuntime_lookups eq_refl eq_refl eq_refl eq_refl eq_refl).
Defined.

(** The deadline passes while the runtime refuses every command. *)
Lemma timeout_lookup_failure_witness :
  runInContainerAsync brokenRuntime plainStringify "1700000000" "centos"
    (CmdString "true") OnComplete sampleOptions hangs emptyWorld
  = (addSpawn (RunProgram "docker" (psCommand (VStr "1700000000")))
       (addSpawn
          (ExecAsync "docker run -v /tmp/a:/b --name 1700000000 --interactive centos true")
          (addListener emptyWorld)),
     Throw (Error "daemon down")).
Proof.
  exact (timeout_lookup_failure brokenRuntime plainStringify "1700000000"
           "centos" (CmdString "true") OnComplete sampleOptions hangs emptyWorld
           _ _ _ _ _ eq_refl eq_refl eq_refl eq_refl).
Defined.

Lemma loadImage_missing_witness :
  noFile "/tmp/centos.tar.gz" = false
  /\ loadImage quietRuntime noFile gzExtname sampleLogExec "/tmp/centos.tar.gz"
       emptyWorld
     = (emptyWorld,
        Throw (Error "Cannot load /tmp/centos.tar.gz as docker image: file does not exist.")).
Proof.
  split; [reflexivity|].
  exact (loadImage_missing_file quietRuntime noFile gzExtname sampleLogExec
           "/tmp/centos.tar.gz" emptyWorld eq_refl).
Defined.

(** A path whose directory also contains [.gz]. *)
Lemma loadImage_gz_witness :
  occurs ".gz" "/data" = false
  /\ loadImage quietRuntime everyFile gzExtname sampleLogExec
       "/data.gz.d/img.tar.gz" emptyWorld
     = (mkWorld [RunProgram "gunzip" "/data.gz.d/img.tar.gz";
                 RunProgram "docker" "load -i /data.d/img.tar.gz"] [] [] 0,
        Ret "0123abcd").
Proof.
  split; [reflexivity|].
  exact (loadImage_gz_first_occurrence quietRuntime everyFile gzExtname
           sampleLogExec "/data" ".d/img.tar.gz" emptyWorld
           eq_refl eq_refl eq_refl).
Defined.

(** [shell('test-image')] *)
Lemma shell_default_flags_witness :
  exists flags,
    shell plainStringify sampleGlob sampleJoin sampleBasename sampleSpawnSync
      "test-image" (mkShellOptions VNull None None)
    = sampleSpawnSync "docker"
        ([VStr "run"] ++ flags ++ [] ++ [VStr "test-image"; VStr "bash"])
    /\ flags = _parseRunOptions (shellRunOptions' (mkShellOptions VNull None None))
    /\ In (VStr "--interactive") flags
    /\ In (VStr "--tty") flags.
Proof.
  apply (shell_default_flags plainStringify sampleGlob sampleJoin sampleBasename
           sampleSpawnSync "test-image" (mkShellOptions VNull None None) []).
  - reflexivity.
  - reflexivity.
  - discriminate.
  - discriminate.
Defined.

(** [shell('test-image', {root: '/tmp/root'})] *)
Lemma shell_root_binds_witness :
  In "/tmp/root/bin" (sampleGlob ("/tmp/root" +++ "/*"))
  /\ exists args pre post,
       shell plainStringify sampleGlob sampleJoin sampleBasename sampleSpawnSync
         "test-image" (mkShellOptions (VStr "/tmp/root") None None)
       = sampleSpawnSync "docker" args
       /\ args = pre ++ [VStr "-v"; VStr "/tmp/root/bin:/bin"] ++ post.
Proof.
  assert (In "/tmp/root/bin" (sampleGlob ("/tmp/root" +++ "/*"))) as Hin
    by now left.
  split; [exact Hin|].
  apply (shell_root_binds plainStringify sampleGlob sampleJoin sampleBasename
           sampleSpawnSync "test-image"
           (mkShellOptions (VStr "/tmp/root") None None) "/tmp/root/bin").
  - reflexivity.
  - intros h v [].
  - exact Hin.
Defined.

Lemma shell_invalid_mapping_witness :
  exists v,
    isString v || isReallyObject v = false
    /\ shell plainStringify sampleGlob sampleJoin sampleBasename sampleSpawnSync
         "test-image" (mkShellOptions VNull (Some [("/tmp/a", VNum 42)]) None)
         emptyWorld
       = (emptyWorld, Throw (invalidMappingSpec plainStringify v)).
Proof.
  apply (shell_invalid_mapping plainStringify sampleGlob sampleJoin
           sampleBasename sampleSpawnSync "test-image"
           (mkShellOptions VNull (Some [("/tmp/a", VNum 42)]) None) emptyWorld).
  - reflexivity.
  - exists "/tmp/a", (VNum 42). split; [now left|reflexivity].
Defined.
